(** * Resume-Rag: a retrieval-augmented CV question-answering service

    A shallow embedding of [app.py]: the index fetcher
    ([download_index_folder]), the query pipeline ([CVQueryApp.query]),
    the chat callback ([update_chat]) and the module's start-up sequence,
    together with the properties the specification states about them. *)

From Stdlib Require Import Ascii String ZArith QArith.
From stdpp Require Import gmap strings list fin_maps sorting.

Local Open Scope string_scope.

(** ** Python values, exceptions and string helpers *)

Module Py.

(** An exception object: the name of its class, whether that class derives
    from [Exception] (as opposed to [BaseException] only, such as
    [KeyboardInterrupt] or [SystemExit]), and what [str(e)] yields. *)
Record exc : Type := mkExc {
  exc_class : string;
  exc_is_Exception : bool;
  exc_str : string
}.

(** The outcome of evaluating an expression or running a block: a value, or
    a raised exception. *)
Inductive outcome (A : Type) : Type :=
| Return (a : A)
| Raise (e : exc).
Arguments Return {A} a.
Arguments Raise {A} e.

Definition bind {A B : Type} (m : outcome A) (k : A -> outcome B) : outcome B :=
  match m with
  | Return a => k a
  | Raise e => Raise e
  end.

Definition ValueError (msg : string) : exc := mkExc "ValueError" true msg.
Definition IndexError (msg : string) : exc := mkExc "IndexError" true msg.
Definition AttributeError (msg : string) : exc := mkExc "AttributeError" true msg.
Definition NameError (name : string) : exc :=
  mkExc "NameError" true ("name '" ++ name ++ "' is not defined").
(** [str(KeyError(k))] is the repr of the key. *)
Definition KeyError (key : string) : exc :=
  mkExc "KeyError" true ("'" ++ key ++ "'").

(** The newline character, ["\n"] in the source. *)
Definition nl : string := String "010"%char EmptyString.

Definition slash : ascii := "/"%char.

(** [c in s] for a character. *)
Fixpoint occurs (c : ascii) (s : string) : bool :=
  match s with
  | EmptyString => false
  | String d r => if Ascii.eqb c d then true else occurs c r
  end.

(** [s.startswith(p)]. *)
Fixpoint startswith (s p : string) : bool :=
  match p, s with
  | EmptyString, _ => true
  | String _ _, EmptyString => false
  | String a p', String b s' => if Ascii.eqb a b then startswith s' p' else false
  end.

(** [s.endswith(p)]. *)
Fixpoint endswith (s p : string) : bool :=
  if String.eqb s p then true
  else match s with
       | EmptyString => false
       | String _ r => endswith r p
       end.

(** [needle in hay] for strings: [needle] starts at some position of
    [hay]. *)
Fixpoint contains (hay needle : string) : bool :=
  if startswith hay needle then true
  else match hay with
       | EmptyString => false
       | String _ r => contains r needle
       end.

(** [os.path.basename(p)] on POSIX: [p[p.rfind('/') + 1:]]. *)
Fixpoint basename (p : string) : string :=
  match p with
  | EmptyString => EmptyString
  | String c r =>
      if occurs slash r then basename r
      else if Ascii.eqb c slash then r
      else p
  end.

(** [os.path.join(a, b)] on POSIX, for two components. *)
Definition path_join (a b : string) : string :=
  if startswith b "/" then b
  else if String.eqb a "" || endswith a "/" then a ++ b
  else a ++ "/" ++ b.

(** [sep.join(parts)]. *)
Fixpoint str_join (sep : string) (parts : list string) : string :=
  match parts with
  | [] => ""
  | [p] => p
  | p :: rest => p ++ sep ++ str_join sep rest
  end.

(** [xs[i]] on a list. *)
Definition getitem {A : Type} (xs : list A) (i : nat) : outcome A :=
  match xs !! i with
  | Some x => Return x
  | None => Raise (IndexError "list index out of range")
  end.

(** Truthiness of a string: [bool(s)]. *)
Definition truthy (s : string) : bool := negb (String.eqb s "").

(** Code that talks to the outside (remote services, the clock of the
    world): it runs from a state of the world, leaves a new one and either
    returns or raises. *)
Definition io (W A : Type) : Type := W -> W * outcome A.

Definition io_ret {W A : Type} (a : A) : io W A := fun w => (w, Return a).

Definition io_raise {W A : Type} (e : exc) : io W A := fun w => (w, Raise e).

Definition io_bind {W A B : Type} (m : io W A) (k : A -> io W B) : io W B :=
  fun w =>
    match m w with
    | (w', Return a) => k a w'
    | (w', Raise e) => (w', Raise e)
    end.

Definition io_lift {W A : Type} (o : outcome A) : io W A := fun w => (w, o).

(** [try: body except Exception as e: handler(e)] for code that talks to
    the outside: what the body did to the world before it raised stays
    done. *)
Definition io_try_except_Exception {W A : Type}
    (body : io W A) (handler : exc -> io W A) : io W A :=
  fun w =>
    match body w with
    | (w', Return a) => (w', Return a)
    | (w', Raise e) => if exc_is_Exception e then handler e w' else (w', Raise e)
    end.

End Py.
Export Py.

Global Instance outcome_bind : MBind outcome := fun A B k m => Py.bind m k.
Global Instance outcome_ret : MRet outcome := @Py.Return.
Global Instance io_mbind {W : Type} : MBind (io W) := fun A B k m => io_bind m k.
Global Instance io_mret {W : Type} : MRet (io W) := fun A a => io_ret a.

(** ** Index Fetcher: [download_index_folder] *)

Module Fetcher.

(** One object of the bucket: its key and what downloading it yields. *)
Record blob : Type := mkBlob {
  name : string;
  payload : outcome (list Byte.byte)
}.

(** The storage service as the fetcher sees it: whether a client can be
    built from the ambient credentials, and the listing of a bucket under a
    prefix, in the order the service returns it. *)
Record gcs : Type := mkGcs {
  gcs_client : outcome unit;
  gcs_list_blobs : string -> string -> outcome (list blob)
}.

(** The local file system: the directories known to exist and the regular
    files with their bytes. *)
Record filesystem : Type := mkFs {
  dirs : gset string;
  files : gmap string (list Byte.byte)
}.

(** [os.makedirs(d, exist_ok=True)] when it returns: [d] is a directory
    afterwards.  The parents it creates on the way are not tracked, and the
    call that raises because [d] or a parent is a regular file has no
    counterpart here. *)
Definition makedirs (d : string) (fs : filesystem) : filesystem :=
  mkFs ({[ d ]} ∪ dirs fs) (files fs).

(** [blob.download_to_filename(path)] on success: the file holds exactly
    the downloaded bytes, whatever it held before.  The call that raises
    because [path] is a directory has no counterpart here. *)
Definition write_file (path : string) (bytes : list Byte.byte) (fs : filesystem) : filesystem :=
  mkFs (dirs fs) (<[ path := bytes ]> (files fs)).

Definition is_dir_marker (b : blob) : bool := endswith (name b) "/".

Definition local_path (destination_dir : string) (b : blob) : string :=
  path_join destination_dir (basename (name b)).

(** The body of the [for blob in blobs] loop. *)
Definition fetch_blob (destination_dir : string) (b : blob) (fs : filesystem)
  : outcome filesystem :=
  if is_dir_marker b then Return fs
  else
    bytes ← payload b;
    Return (write_file (local_path destination_dir b) bytes fs).

Fixpoint fetch_blobs (destination_dir : string) (blobs : list blob) (fs : filesystem)
  : outcome filesystem :=
  match blobs with
  | [] => Return fs
  | b :: rest =>
      fs' ← fetch_blob destination_dir b fs;
      fetch_blobs destination_dir rest fs'
  end.

(** [download_index_folder(bucket_name, source_folder, destination_dir)].
    The result is the local file system after a run that returns; the
    [logger.debug] lines are not part of it.  When a call to the storage
    service raises, the exception leaves the function. *)
Definition download_index_folder (g : gcs)
    (bucket_name source_folder destination_dir : string) (fs : filesystem)
  : outcome filesystem :=
  gcs_client g;;
  let fs1 := makedirs destination_dir fs in
  blobs ← gcs_list_blobs g bucket_name source_folder;
  fetch_blobs destination_dir blobs fs1.

End Fetcher.

(** ** The query pipeline: [CVQueryApp.query] *)

Module Pipeline.

(** A retrieved chunk as the vector store hands it out. *)
Record Document : Type := mkDocument {
  page_content : string;
  metadata : gmap string string
}.

(** [search_kwargs] of [as_retriever]. *)
Record search_kwargs : Type := mkSearchKwargs {
  k : nat;
  fetch_k : nat;
  lambda_mult : Q
}.

Record message : Type := mkMessage {
  role : string;
  content : string
}.

(** The arguments of [chat.completions.create]. *)
Record completion_request : Type := mkRequest {
  model : string;
  messages : list message;
  temperature : Q;
  max_tokens : Z
}.

(** [response.choices[i].message.content] is [choice_content] of the
    [i]-th element of [choices]. *)
Record choice : Type := mkChoice { choice_content : string }.
Record completion : Type := mkCompletion { choices : list choice }.

Section WithWorld.

(** The state of everything outside the process (the embedding and
    completion services, the network). *)
Variable W : Type.

(** The objects a [CVQueryApp] holds, by the methods [query] calls on
    them. *)
Record Retriever : Type := mkRetriever {
  get_relevant_documents : string -> io W (list Document)
}.

Record VectorStore : Type := mkVectorStore {
  as_retriever : string -> search_kwargs -> Retriever
}.

Record OpenAI : Type := mkOpenAI {
  chat_completions_create : completion_request -> io W completion
}.

Record OpenAIEmbeddings : Type := mkOpenAIEmbeddings {
  embeddings_model : string;
  openai_api_key : string
}.

Record CVQueryApp : Type := mkCVQueryApp {
  client : OpenAI;
  embeddings : OpenAIEmbeddings;
  vector_store : VectorStore
}.

(** [doc.metadata['section']]. *)
Definition metadata_section (doc : Document) : outcome string :=
  match metadata doc !! "section" with
  | Some s => Return s
  | None => Raise (KeyError "section")
  end.

(** [f"[{doc.metadata['section']}]\n{doc.page_content}"]. *)
Definition context_block (doc : Document) : outcome string :=
  section ← metadata_section doc;
  Return ("[" ++ section ++ "]" ++ nl ++ page_content doc).

(** The generator [(... for doc in docs)], consumed by [join]: the first
    document without a section raises. *)
Fixpoint context_blocks (docs : list Document) : outcome (list string) :=
  match docs with
  | [] => Return []
  | doc :: rest =>
      b ← context_block doc;
      bs ← context_blocks rest;
      Return (b :: bs)
  end.

(** [context = "\n".join(...)]. *)
Definition query_context (docs : list Document) : outcome string :=
  blocks ← context_blocks docs;
  Return (str_join nl blocks).

Definition system_prompt : string :=
  "You are a precise CV analysis assistant. Your task is to:" ++ nl ++
  "1. Only use information explicitly stated in the provided CV sections" ++ nl ++
  "2. Quote specific details when possible" ++ nl ++
  "3. If information is not found, clearly state 'Information not found in CV'" ++ nl ++
  "4. Maintain chronological accuracy when discussing experience" ++ nl ++
  "5. Consider all provided sections before answering" ++ nl ++
  "6. Use relevant links of demos, where applicable, to emphasize skills".

(** [f"Based on these CV sections:\n{context}\n\nQuestion: {question}"]. *)
Definition user_prompt (context question : string) : string :=
  "Based on these CV sections:" ++ nl ++ context ++ nl ++ nl ++
  "Question: " ++ question.

Definition query_request (context question : string) : completion_request :=
  {| model := "gpt-4o-mini";
     messages := [ mkMessage "system" system_prompt;
                   mkMessage "user" (user_prompt context question) ];
     temperature := 1 # 10;
     max_tokens := 2000 |}.

Definition query_search_kwargs : search_kwargs :=
  {| k := 8; fetch_k := 20; lambda_mult := 7 # 10 |}.

(** The first statement of [query]: the retrieval. *)
Definition query_docs (self : CVQueryApp) (question : string) : io W (list Document) :=
  get_relevant_documents
    (as_retriever (vector_store self) "mmr" query_search_kwargs) question.

(** The body of the [try] block of [query]. *)
Definition query_body (self : CVQueryApp) (question : string) : io W string :=
  docs ← query_docs self question;
  context ← io_lift (query_context docs);
  response ← chat_completions_create (client self) (query_request context question);
  first ← io_lift (getitem (choices response) 0);
  mret (choice_content first).

(** [CVQueryApp.query(self, question)]. *)
Definition query (self : CVQueryApp) (question : string) : io W string :=
  io_try_except_Exception
    (query_body self question)
    (fun e => mret ("Error: " ++ exc_str e)).

End WithWorld.

Arguments get_relevant_documents {W}.
Arguments as_retriever {W}.
Arguments chat_completions_create {W}.
Arguments client {W}.
Arguments embeddings {W}.
Arguments vector_store {W}.
Arguments query_docs {W}.
Arguments query_body {W}.
Arguments query {W}.

End Pipeline.

(** ** The retriever behind [as_retriever(search_type="mmr", ...)] *)

Module Retriever.
Import Pipeline.

(** Modelled from the spec: Document Chunk of the data model (the index and
    its retriever belong to the vector store library, which is not part of
    the repository's source). *)
Record chunk : Type := mkChunk {
  text : string;
  section : string
}.

(** Modelled from the spec: an embedding, a "fixed-length numeric vector";
    rationals stand for the library's floating-point numbers. *)
Definition vector : Type := list Q.

(** Modelled from the spec: a chunk of the index with its embedding, "owned
    by the index, not the chunk". *)
Definition entry : Type := (chunk * vector)%type.

Definition qmax (a b : Q) : Q := if Qle_bool a b then b else a.

Section WithWorld.

Variable W : Type.

(** Modelled from the spec: Vector Index of the data model: the chunks with
    their embeddings, the embedding function for queries (a remote call) and
    the similarity the index ranks by. *)
Record vector_index : Type := mkVectorIndex {
  entries : list entry;
  embed_query : string -> io W vector;
  similarity : vector -> vector -> Q
}.

Section Ranking.

Variable sim : vector -> vector -> Q.
Variable qv : vector.

(** Modelled from the spec: [relevance_to_query] of step 3. *)
Definition relevance (c : entry) : Q := sim qv (snd c).

(** Modelled from the spec: "nearest chunks by vector distance", as an
    insertion into a list kept by decreasing relevance; among equals the
    earlier entry of the index stays first. *)
Fixpoint insert_nearest (x : entry) (l : list entry) : list entry :=
  match l with
  | [] => [x]
  | y :: r =>
      if Qle_bool (relevance y) (relevance x) then x :: y :: r
      else y :: insert_nearest x r
  end.

(** Modelled from the spec: the chunks from the nearest to the farthest. *)
Fixpoint sort_nearest (l : list entry) : list entry :=
  match l with
  | [] => []
  | x :: r => insert_nearest x (sort_nearest r)
  end.

(** Modelled from the spec: step 2 of the retriever (the nearest-neighbour
    search of the vector store library, which is not part of the
    repository's source): the [fetch_k] nearest chunks. *)
Definition nearest (fetch_k : nat) (es : list entry) : list entry :=
  take fetch_k (sort_nearest es).

Variable diversity : Q.

(** Modelled from the spec: [max_similarity_to_already_selected] of step 3,
    the largest similarity of [c] to a chunk selected so far; taken as 0
    while nothing is selected. *)
Definition max_similarity (selected : list entry) (c : entry) : Q :=
  match selected with
  | [] => 0
  | s :: rest =>
      fold_left (fun m s' => qmax m (sim (snd s') (snd c))) rest (sim (snd s) (snd c))
  end.

(** Modelled from the spec: [diversity * relevance_to_query - (1 - diversity)
    * max_similarity_to_already_selected]. *)
Definition mmr_score (selected : list entry) (c : entry) : Q :=
  diversity * relevance c - (1 - diversity) * max_similarity selected c.

(** Modelled from the spec: "choose the candidate that maximizes" the score,
    "removing it from the pool": the candidate with the largest score (the
    earliest one among equals) and the pool without it. *)
Fixpoint pick_best (score : entry -> Q) (pool : list entry)
  : option (entry * list entry) :=
  match pool with
  | [] => None
  | c :: rest =>
      match pick_best score rest with
      | None => Some (c, [])
      | Some (b, rest') =>
          if Qle_bool (score b) (score c) then Some (c, rest)
          else Some (b, c :: rest')
      end
  end.

(** Modelled from the spec: step 3 of the retriever (the
    maximal-marginal-relevance selection of the vector store library,
    which is not part of the repository's source): [n] rounds, each
    moving the best-scored candidate from the pool to the selection. *)
Fixpoint mmr_select (n : nat) (pool selected : list entry) : list entry :=
  match n with
  | O => []
  | S n' =>
      match pick_best (mmr_score selected) pool with
      | None => []
      | Some (b, pool') => b :: mmr_select n' pool' (selected ++ [b])
      end
  end.

End Ranking.

(** Modelled from the spec: [retrieve(index, query, k, fetch_k, diversity)]
    of the Retriever component (the retriever object of the vector store
    library, which is not part of the repository's source). *)
Definition retrieve (index : vector_index) (query : string)
    (k fetch_k : nat) (diversity : Q) : io W (list chunk) :=
  qv ← embed_query index query;
  let pool := nearest (similarity index) qv fetch_k (entries index) in
  mret (map fst (mmr_select (similarity index) qv diversity k pool [])).

(** Modelled from the spec: a chunk as the document the library hands to
    [query], its section under the metadata key the source reads. *)
Definition doc_of_chunk (c : chunk) : Document :=
  mkDocument (text c) {[ "section" := section c ]}.

(** Modelled from the spec: the vector store the application loads, as
    far as [query] uses it (the library class is not part of the
    repository's source): its "mmr" retriever answers with [retrieve];
    the other search types are not described and raise here. *)
Definition spec_vector_store (index : vector_index) : VectorStore W :=
  mkVectorStore W (fun search_type kw =>
    mkRetriever W (fun question =>
      if String.eqb search_type "mmr" then
        chunks ← retrieve index question (k kw) (fetch_k kw) (lambda_mult kw);
        mret (map doc_of_chunk chunks)
      else io_raise (ValueError ("search_type of " ++ search_type ++ " not allowed.")))).

End WithWorld.

Arguments entries {W}.
Arguments embed_query {W}.
Arguments similarity {W}.
Arguments retrieve {W}.
Arguments spec_vector_store {W}.

End Retriever.

(** ** Module-level names *)

Module Globals.
Import Pipeline.

(** The names of Python's [builtins] module, where a global lookup falls
    back to. *)
Definition builtin_names : list string :=
  [ "ArithmeticError"; "AssertionError"; "AttributeError"; "BaseException";
    "BaseExceptionGroup"; "BlockingIOError"; "BrokenPipeError"; "BufferError";
    "BytesWarning"; "ChildProcessError"; "ConnectionAbortedError";
    "ConnectionError"; "ConnectionRefusedError"; "ConnectionResetError";
    "DeprecationWarning"; "EOFError"; "Ellipsis"; "EncodingWarning";
    "EnvironmentError"; "Exception"; "ExceptionGroup"; "False";
    "FileExistsError"; "FileNotFoundError"; "FloatingPointError";
    "FutureWarning"; "GeneratorExit"; "IOError"; "ImportError";
    "ImportWarning"; "IndentationError"; "IndexError"; "InterruptedError";
    "IsADirectoryError"; "KeyError"; "KeyboardInterrupt"; "LookupError";
    "MemoryError"; "ModuleNotFoundError"; "NameError"; "None";
    "NotADirectoryError"; "NotImplemented"; "NotImplementedError"; "OSError";
    "OverflowError"; "PendingDeprecationWarning"; "PermissionError";
    "ProcessLookupError"; "PythonFinalizationError"; "RecursionError";
    "ReferenceError"; "ResourceWarning"; "RuntimeError"; "RuntimeWarning";
    "StopAsyncIteration"; "StopIteration"; "SyntaxError"; "SyntaxWarning";
    "SystemError"; "SystemExit"; "TabError"; "TimeoutError"; "True";
    "TypeError"; "UnboundLocalError"; "UnicodeDecodeError";
    "UnicodeEncodeError"; "UnicodeError"; "UnicodeTranslateError";
    "UnicodeWarning"; "UserWarning"; "ValueError"; "Warning";
    "ZeroDivisionError"; "__build_class__"; "__debug__"; "__doc__";
    "__import__"; "__loader__"; "__name__"; "__package__"; "__spec__";
    "abs"; "aiter"; "all"; "anext"; "any"; "ascii"; "bin"; "bool";
    "breakpoint"; "bytearray"; "bytes"; "callable"; "chr"; "classmethod";
    "compile"; "complex"; "copyright"; "credits"; "delattr"; "dict"; "dir";
    "divmod"; "enumerate"; "eval"; "exec"; "exit"; "filter"; "float";
    "format"; "frozenset"; "getattr"; "globals"; "hasattr"; "hash"; "help";
    "hex"; "id"; "input"; "int"; "isinstance"; "issubclass"; "iter"; "len";
    "license"; "list"; "locals"; "map"; "max"; "memoryview"; "min"; "next";
    "object"; "oct"; "open"; "ord"; "pow"; "print"; "property"; "quit";
    "range"; "repr"; "reversed"; "round"; "set"; "setattr"; "slice";
    "sorted"; "staticmethod"; "str"; "sum"; "super"; "tuple"; "type";
    "vars"; "zip" ].

Section WithWorld.

Variable W : Type.

(** What a module-level name can be bound to. *)
Inductive pyobj : Type :=
| ObjModule (name : string)
| ObjClass (name : string)
| ObjFunction (name : string)
| ObjBuiltin (name : string)
| ObjCVQueryApp (self : CVQueryApp W)
| ObjOther (repr : string).

(** Reading a name that is not local to a function: the module's
    globals, then the builtins, else [NameError]. *)
Definition load_global (G : gmap string pyobj) (name : string) : outcome pyobj :=
  match G !! name with
  | Some v => Return v
  | None =>
      if bool_decide (name ∈ builtin_names) then Return (ObjBuiltin name)
      else Raise (NameError name)
  end.

(** [obj.query(question)]. *)
Definition call_query (obj : pyobj) (question : string) : io W string :=
  match obj with
  | ObjCVQueryApp self => query self question
  | ObjClass "CVQueryApp" =>
      io_raise (mkExc "TypeError" true
        "CVQueryApp.query() missing 1 required positional argument: 'question'")
  | _ => io_raise (AttributeError "object has no attribute 'query'")
  end.

End WithWorld.

Arguments ObjModule {W}.
Arguments ObjClass {W}.
Arguments ObjFunction {W}.
Arguments ObjBuiltin {W}.
Arguments ObjCVQueryApp {W}.
Arguments ObjOther {W}.
Arguments load_global {W}.
Arguments call_query {W}.

End Globals.

(** ** The chat callback: [update_chat] *)

Module Chat.
Import Pipeline Globals.

(** One entry of the chat store: [{'user': ..., 'bot': ...}]. *)
Record chat : Type := mkChat {
  user : string;
  bot : string
}.

(** The page elements the callback builds: [html.Div(children,
    className=...)] and text. *)
#[warnings="-register-all"] Inductive component : Type :=
| Div (className : option string) (children : list component)
| Text (s : string).

(** The value of one callback output. *)
Inductive output (A : Type) : Type :=
| no_update
| value (a : A).
Arguments no_update {A}.
Arguments value {A} a.

(** The four outputs, in the order of the decorator. *)
Record outputs : Type := mkOutputs {
  out_children : output (list component);
  out_store : output (list chat);
  out_input : output string;
  out_typing_disabled : output bool
}.

(** An entry of [ctx.triggered]. *)
Record triggered_input : Type := mkTriggered { prop_id : string }.

(** The two bubbles of one exchange. *)
Definition chat_bubbles (c : chat) : list component :=
  [ Div (Some "message-container user-message-container")
      [ Div (Some "message-bubble user-bubble") [ Text (user c) ] ];
    Div (Some "message-container")
      [ Div (Some "message-bubble bot-bubble") [ Text (bot c) ] ] ].

Definition typing_indicator : component :=
  Div (Some "message-container")
    [ Div (Some "typing-indicator")
        [ Div (Some "dot") []; Div (Some "dot") []; Div (Some "dot") [] ] ].

(** The [for chat in chat_history] loop followed by the indicator. *)
Definition render (chat_history : list chat) : list component :=
  (flat_map chat_bubbles chat_history ++ [ typing_indicator ])%list.

Section WithWorld.

Variable W : Type.

(** [update_chat(n_clicks, n_intervals, user_input, chat_history)], run
    with the module globals [G] and [ctx.triggered = triggered].  The name
    [dash], which line 1 imports, is taken as bound in [G]. *)
Definition update_chat (G : gmap string (pyobj W)) (triggered : list triggered_input)
    (n_clicks n_intervals : option Z) (user_input : string)
    (chat_history : list chat) : io W outputs :=
  match triggered with
  | [] => mret (mkOutputs no_update no_update no_update no_update)
  | first :: _ =>
      if contains (prop_id first) "submit-button" then
        cv_app ← io_lift (load_global G "cv_app");
        response ← call_query cv_app user_input;
        let chat_history := (chat_history ++ [ mkChat user_input response ])%list in
        let chat_messages := render chat_history in
        mret (mkOutputs (value chat_messages) (value chat_history)
                        (value "") (value false))
      else if contains (prop_id first) "fake-typing" then
        mret (mkOutputs no_update no_update no_update (value true))
      else
        mret (mkOutputs no_update no_update no_update (value true))
  end.

End WithWorld.

Arguments update_chat {W}.

End Chat.

(** ** Start-up: [load_vector_store], [CVQueryApp.__init__] and the module body *)

Module Startup.
Import Pipeline Globals Fetcher.

(** [os.getenv(name, default)]. *)
Definition getenv_default (environ : gmap string string) (name default : string) : string :=
  match environ !! name with
  | Some v => v
  | None => default
  end.

(** [bool(os.getenv(name))]: set and not empty. *)
Definition getenv_truthy (environ : gmap string string) (name : string) : option string :=
  match environ !! name with
  | Some v => if truthy v then Some v else None
  | None => None
  end.

(** Code that writes [logger.error] records: the records written, then how
    it ended.  ([logger.debug] records are left out.) *)
Definition logged (A : Type) : Type := (list string * outcome A)%type.

(** [try: body except Exception as e: logger.error(msg(e)); raise]. *)
Definition log_and_reraise {A : Type} (body : logged A) (msg : exc -> string) : logged A :=
  match body with
  | (records, Raise e) =>
      if exc_is_Exception e then ((records ++ [ msg e ])%list, Raise e)
      else (records, Raise e)
  | done => done
  end.

Section WithWorld.

Variable W : Type.

(** The constructors of the client libraries: [OpenAI(api_key=...)] and
    [FAISS.load_local(folder, embeddings,
    allow_dangerous_deserialization=True)], which reads the local
    files. *)
Variable OpenAI_new : string -> OpenAI W.
Variable FAISS_load_local :
  filesystem -> string -> OpenAIEmbeddings -> outcome (VectorStore W).

(** [load_vector_store(embeddings)]: the loaded store and the file system
    it leaves, when it returns. *)
Definition load_vector_store (environ : gmap string string) (g : gcs)
    (fs : filesystem) (embeddings : OpenAIEmbeddings)
  : logged (VectorStore W * filesystem) :=
  let bucket_name := getenv_default environ "GCS_BUCKET_NAME" "ragsd-resume-bucket" in
  let index_path :=
    getenv_default environ "GCS_INDEX_PATH"
      "faiss_indexes/cv_index_text-embedding-3-large" in
  let destination_folder := "/tmp/faiss_index" in
  match download_index_folder g bucket_name index_path destination_folder fs with
  | Raise e => ([], Raise e)
  | Return fs' =>
      log_and_reraise
        ([], vector_store ← FAISS_load_local fs' destination_folder embeddings;
             Return (vector_store, fs'))
        (fun _ => "Error loading index. Verify downloaded files match FAISS requirements.")
  end.

(** [CVQueryApp.__init__(self)]. *)
Definition CVQueryApp_init (environ : gmap string string) (g : gcs) (fs : filesystem)
  : logged (CVQueryApp W * filesystem) :=
  log_and_reraise
    (match getenv_truthy environ "OPENAI_API_KEY" with
     | None => ([], Raise (ValueError "OPENAI_API_KEY not found!"))
     | Some api_key =>
         let client := OpenAI_new api_key in
         let embeddings := mkOpenAIEmbeddings "text-embedding-3-large" api_key in
         match load_vector_store environ g fs embeddings with
         | (records, Return (vector_store, fs')) =>
             (records, Return (mkCVQueryApp W client embeddings vector_store, fs'))
         | (records, Raise e) => (records, Raise e)
         end
     end)
    (fun e => "Error initializing CVQueryApp: " ++ exc_str e).

(** The process while the module body runs. *)
Record process : Type := mkProcess {
  environ : gmap string string;
  proc_fs : filesystem;
  module_globals : gmap string (pyobj W);
  error_log : list string;
  listening : option (string * Z)
}.

Definition bind_name (name : string) (v : pyobj W) (p : process) : process :=
  mkProcess (environ p) (proc_fs p) (<[ name := v ]> (module_globals p))
            (error_log p) (listening p).

Definition bind_names (bs : list (string * pyobj W)) (p : process) : process :=
  fold_left (fun p b => bind_name (fst b) (snd b) p) bs p.

Definition logger_error (msg : string) (p : process) : process :=
  mkProcess (environ p) (proc_fs p) (module_globals p)
            (error_log p ++ [ msg ])%list (listening p).

(** Lines 1-13: the imports and the logger. *)
Definition imports : list (string * pyobj W) :=
  [ ("dash", ObjModule "dash"); ("html", ObjModule "dash.html");
    ("dcc", ObjModule "dash.dcc"); ("Input", ObjClass "Input");
    ("Output", ObjClass "Output"); ("State", ObjClass "State");
    ("os", ObjModule "os"); ("tempfile", ObjModule "tempfile");
    ("OpenAI", ObjClass "OpenAI");
    ("OpenAIEmbeddings", ObjClass "OpenAIEmbeddings");
    ("FAISS", ObjClass "FAISS"); ("storage", ObjModule "google.cloud.storage");
    ("logging", ObjModule "logging"); ("logger", ObjOther "Logger") ].

(** Lines 16-23: the credentials file, for a text the file's encoding can
    write. *)
Definition write_credentials (tmpname : string) (p : process) : process :=
  match getenv_truthy (environ p) "GOOGLE_CREDENTIALS_JSON" with
  | Some json =>
      bind_name "temp" (ObjOther "NamedTemporaryFile")
        (mkProcess
           (<[ "GOOGLE_APPLICATION_CREDENTIALS" := tmpname ]> (environ p))
           (write_file tmpname (list_byte_of_string json) (proc_fs p))
           (module_globals p) (error_log p) (listening p))
  | None =>
      logger_error "GOOGLE_CREDENTIALS_JSON environment variable not set." p
  end.

(** Lines 28-381: the [def] and [class] statements, the Dash
    application, its layout and the decorated callback. *)
Definition definitions : list (string * pyobj W) :=
  [ ("download_index_folder", ObjFunction "download_index_folder");
    ("load_vector_store", ObjFunction "load_vector_store");
    ("CVQueryApp", ObjClass "CVQueryApp");
    ("app", ObjOther "dash.Dash"); ("server", ObjOther "flask.Flask");
    ("update_chat", ObjFunction "update_chat") ].

(** Lines 383-385: [port = int(os.getenv("PORT", 7860))] and
    [app.run_server(host='0.0.0.0', port=port, debug=True)], which binds
    the listener and serves, for a port the system lets the process
    bind. *)
Definition run_main (py_int : string -> outcome Z) (p : process) : process * outcome unit :=
  match (match environ p !! "PORT" with
         | Some s => py_int s
         | None => Return 7860%Z
         end) with
  | Raise e => (p, Raise e)
  | Return port =>
      let p := bind_name "port" (ObjOther "int") p in
      (mkProcess (environ p) (proc_fs p) (module_globals p) (error_log p)
                 (Some ("0.0.0.0", port)),
       Return tt)
  end.

(** The module body, run under the module name [dunder_name]
    (["__main__"] when started as a script). *)
Definition exec_module (dunder_name : string) (py_int : string -> outcome Z)
    (tmpname : string) (environ0 : gmap string string) (fs0 : filesystem)
  : process * outcome unit :=
  let p := mkProcess environ0 fs0 {[ "__name__" := ObjOther dunder_name ]} [] None in
  let p := bind_names imports p in
  let p := write_credentials tmpname p in
  let p := bind_names definitions p in
  if String.eqb dunder_name "__main__" then run_main py_int p
  else (p, Return tt).

End WithWorld.

Arguments environ {W}.
Arguments proc_fs {W}.
Arguments module_globals {W}.
Arguments error_log {W}.
Arguments listening {W}.
Arguments exec_module {W}.
Arguments CVQueryApp_init {W}.
Arguments load_vector_store {W}.

End Startup.

(** ** One browser session driving the callback *)

Module Session.
Import Pipeline Globals Chat.

(** The properties of the page the callback reads and writes, and the
    errors of callbacks that raised. *)
Record page : Type := mkPage {
  children : list component;
  store : list chat;
  input_value : string;
  typing_disabled : bool;
  callback_errors : list exc
}.

(** The layout: an empty transcript, [dcc.Store(data=[])], an empty input
    field and [dcc.Interval(disabled=True)]. *)
Definition initial_page : page := mkPage [] [] "" true [].

Definition apply_output {A : Type} (o : output A) (old : A) : A :=
  match o with
  | no_update => old
  | value a => a
  end.

Definition apply_outputs (o : outputs) (pg : page) : page :=
  mkPage (apply_output (out_children o) (children pg))
         (apply_output (out_store o) (store pg))
         (apply_output (out_input o) (input_value pg))
         (apply_output (out_typing_disabled o) (typing_disabled pg))
         (callback_errors pg).

Definition record_error (e : exc) (pg : page) : page :=
  mkPage (children pg) (store pg) (input_value pg) (typing_disabled pg)
         (callback_errors pg ++ [ e ])%list.

(** What happens in the browser: text typed in the field, a click on the
    send button, a tick of the interval timer. *)
Inductive event : Type :=
| Typed (s : string)
| Clicked
| Tick.

Section WithWorld.

Variable W : Type.
Variable G : gmap string (pyobj W).

(** One round trip of the callback fired by [prop], by the contract of the
    callback decorator: the states are read from the page, an output that
    is [no_update] leaves its property as it is, the other outputs replace
    theirs; when the callback raises, no output is applied. *)
Definition fire (prop : string) (pg : page) : io W page :=
  fun w =>
    match update_chat G [ mkTriggered prop ] None None
                      (input_value pg) (store pg) w with
    | (w', Return o) => (w', Return (apply_outputs o pg))
    | (w', Raise e) => (w', Return (record_error e pg))
    end.

(** A disabled interval does not tick. *)
Definition step (ev : event) (pg : page) : io W page :=
  match ev with
  | Typed s =>
      mret (mkPage (children pg) (store pg) s (typing_disabled pg)
                   (callback_errors pg))
  | Clicked => fire "submit-button.n_clicks" pg
  | Tick =>
      if typing_disabled pg then mret pg
      else fire "fake-typing.n_intervals" pg
  end.

Fixpoint run (evs : list event) (pg : page) : io W page :=
  match evs with
  | [] => mret pg
  | ev :: rest => pg' ← step ev pg; run rest pg'
  end.

End WithWorld.

Arguments fire {W}.
Arguments step {W}.
Arguments run {W}.

(** The answers a transcript shows, top to bottom: the text of its bot
    bubbles. *)
Definition bot_bubble_text (c : component) : list string :=
  match c with
  | Div (Some "message-container")
        [ Div (Some "message-bubble bot-bubble") [ Text s ] ] => [ s ]
  | _ => []
  end.

Definition answers_shown (transcript : list component) : list string :=
  flat_map bot_bubble_text transcript.

(** Whether the transcript shows the typing indicator. *)
Definition is_typing_indicator (c : component) : bool :=
  match c with
  | Div (Some "message-container") [ Div (Some "typing-indicator") _ ] => true
  | _ => false
  end.

Definition shows_typing (transcript : list component) : bool :=
  existsb is_typing_indicator transcript.

End Session.

(** ** Vocabulary of the properties *)

Module FetcherSpec.
Import Fetcher.

(** The objects of a listing that carry content. *)
Definition content_blobs (blobs : list blob) : list blob :=
  filter (fun b => is_dir_marker b = false) blobs.

(** The bytes a run over [blobs] wrote last to the local path [p], if it
    wrote there at all. *)
Fixpoint last_write (dest : string) (blobs : list blob) (p : string)
  : option (list Byte.byte) :=
  match blobs with
  | [] => None
  | b :: rest =>
      match last_write dest rest p with
      | Some bytes => Some bytes
      | None =>
          if is_dir_marker b then None
          else if decide (local_path dest b = p) then
                 match payload b with
                 | Return bytes => Some bytes
                 | Raise _ => None
                 end
               else None
      end
  end.

End FetcherSpec.

Module PipelineSpec.
Import Pipeline.

Section WithWorld.

Variable W : Type.

(** The steps of the pipeline at which a question turn can fail: the
    retrieval, the context assembly, the completion call and the reading
    of its response. *)
Inductive pipeline_raises (self : CVQueryApp W) (question : string)
    (w w' : W) (e : exc) : Prop :=
| retrieval_raises :
    query_docs self question w = (w', Raise e) ->
    pipeline_raises self question w w' e
| assembly_raises docs :
    query_docs self question w = (w', Return docs) ->
    query_context docs = Raise e ->
    pipeline_raises self question w w' e
| generation_raises docs context w1 :
    query_docs self question w = (w1, Return docs) ->
    query_context docs = Return context ->
    chat_completions_create (client self) (query_request context question) w1
      = (w', Raise e) ->
    pipeline_raises self question w w' e
| response_raises docs context w1 response :
    query_docs self question w = (w1, Return docs) ->
    query_context docs = Return context ->
    chat_completions_create (client self) (query_request context question) w1
      = (w', Return response) ->
    getitem (choices response) 0 = Raise e ->
    pipeline_raises self question w w' e.

End WithWorld.

Arguments pipeline_raises {W}.
Arguments retrieval_raises {W}.
Arguments assembly_raises {W}.
Arguments generation_raises {W}.
Arguments response_raises {W}.

End PipelineSpec.

Module RetrieverSpec.
Import Retriever.

Section Nearness.

Variable sim : vector -> vector -> Q.
Variable qv : vector.

(** [x] is at least as near to the query as [y]. *)
Definition nearer (x y : entry) : Prop :=
  (relevance sim qv y <= relevance sim qv x)%Q.

End Nearness.

Section Selection.

Variable score : list entry -> entry -> Q.

(** [picks] lists, in the order they were chosen, candidates taken one by
    one from [pool], each the best-scored of what was left given the
    ones chosen before it. *)
Inductive selection_order : list entry -> list entry -> list entry -> Prop :=
| selection_stop pool selected :
    selection_order pool selected []
| selection_pick pool selected best pool' picks :
    pool ≡ₚ best :: pool' ->
    (forall c, c ∈ pool -> (score selected c <= score selected best)%Q) ->
    selection_order pool' (selected ++ [ best ])%list picks ->
    selection_order pool selected (best :: picks).

End Selection.

End RetrieverSpec.

(** ** Concrete scenarios *)

Module Scenario.
Import Fetcher Pipeline Retriever Globals Startup.

(** A bucket with a folder placeholder and two objects of the same base
    name in different subfolders. *)
Definition remote : list blob :=
  [ mkBlob "faiss/" (Return []);
    mkBlob "faiss/v1/index.faiss" (Return [ Byte.x01 ]);
    mkBlob "faiss/v2/index.faiss" (Return [ Byte.x02 ]) ].

Definition service : gcs :=
  mkGcs (Return tt)
        (fun bucket prefix =>
           Return (List.filter (fun b => startswith (name b) prefix) remote)).

Definition empty_fs : filesystem := mkFs ∅ ∅.

Definition fetched : filesystem :=
  mkFs {[ "/tmp/faiss_index" ]}
       {[ "/tmp/faiss_index/index.faiss" := [ Byte.x02 ] ]}.

(** A world that counts the remote calls made so far. *)
Definition world : Type := nat.

Definition cv_doc : Document :=
  mkDocument "X" {[ "section" := "Experience" ]}.

Definition one_doc_store : VectorStore world :=
  mkVectorStore world (fun _ _ =>
    mkRetriever world (fun _ w => (S w, Return [ cv_doc ]))).

Definition connection_error : exc :=
  mkExc "APIConnectionError" true "Connection error.".

(** A completion service that is down during the first two remote calls
    and answers ["A"] afterwards. *)
Definition flaky_client : OpenAI world :=
  mkOpenAI world (fun _ w =>
    if Nat.ltb w 2 then (S w, Raise connection_error)
    else (S w, Return (mkCompletion [ mkChoice "A" ]))).

Definition steady_client : OpenAI world :=
  mkOpenAI world (fun _ w => (S w, Return (mkCompletion [ mkChoice "A" ]))).

Definition some_embeddings : OpenAIEmbeddings :=
  mkOpenAIEmbeddings "text-embedding-3-large" "sk-test".

Definition flaky_app : CVQueryApp world :=
  mkCVQueryApp world flaky_client some_embeddings one_doc_store.

Definition steady_app : CVQueryApp world :=
  mkCVQueryApp world steady_client some_embeddings one_doc_store.

(** The module globals of a process started as a script with an empty
    environment. *)
Definition shipped_globals : gmap string (pyobj world) :=
  module_globals
    (exec_module "__main__" (fun _ => Return 0%Z) "/tmp/tmpcred" ∅ empty_fs).1.

Definition dot (a b : vector) : Q :=
  fold_right Qplus 0%Q (zip_with Qmult a b).

Definition cv_entries : list entry :=
  [ (mkChunk "Data scientist at Acme" "Experience", [ 1; 0 ]%Q);
    (mkChunk "Python, SQL" "Skills", [ 0; 1 ]%Q);
    (mkChunk "Senior data scientist at Acme" "Experience", [ 1; 1 # 10 ]%Q) ].

(** An index whose embedding service maps every query to the same
    vector. *)
Definition cv_index : vector_index world :=
  mkVectorIndex world cv_entries (fun _ w => (S w, Return [ 1; 1 # 2 ]%Q)) dot.

Definition indexed_app : CVQueryApp world :=
  mkCVQueryApp world steady_client some_embeddings (spec_vector_store cv_index).

End Scenario.

(** ** Further vocabulary and scenarios *)

Module TextSpec.

(** Text made of 7-bit characters only, which every encoding of a text file
    in use writes byte for byte. *)
Fixpoint is_ascii (s : string) : bool :=
  match s with
  | EmptyString => true
  | String (Ascii _ _ _ _ _ _ _ b7) r => negb b7 && is_ascii r
  end.

End TextSpec.

Module TranscriptSpec.
Import Chat.

(** The questions a transcript shows, top to bottom: the text of its user
    bubbles. *)
Definition user_bubble_text (c : component) : list string :=
  match c with
  | Div (Some "message-container user-message-container")
        [ Div (Some "message-bubble user-bubble") [ Text s ] ] => [ s ]
  | _ => []
  end.

Definition questions_shown (transcript : list component) : list string :=
  flat_map user_bubble_text transcript.

End TranscriptSpec.

Module MoreScenarios.
Import Fetcher Pipeline Retriever Scenario.

(** A folder that holds its placeholder only. *)
Definition placeholder_service : gcs :=
  mkGcs (Return tt) (fun _ _ => Return [ mkBlob "faiss/" (Return []) ]).

Definition skills_doc : Document :=
  mkDocument "Python, SQL" {[ "section" := "Skills" ]}.

(** A store whose only chunk carries no section. *)
Definition untagged_store : VectorStore world :=
  mkVectorStore world (fun _ _ =>
    mkRetriever world (fun _ w => (S w, Return [ mkDocument "X" ∅ ]))).

(** A store that finds nothing. *)
Definition empty_store : VectorStore world :=
  mkVectorStore world (fun _ _ => mkRetriever world (fun _ w => (S w, Return []))).

(** A completion service that answers without choices. *)
Definition silent_client : OpenAI world :=
  mkOpenAI world (fun _ w => (S w, Return (mkCompletion []))).

Definition untagged_app : CVQueryApp world :=
  mkCVQueryApp world steady_client some_embeddings untagged_store.

Definition empty_app : CVQueryApp world :=
  mkCVQueryApp world steady_client some_embeddings empty_store.

Definition silent_app : CVQueryApp world :=
  mkCVQueryApp world silent_client some_embeddings one_doc_store.

Definition steady_new (api_key : string) : OpenAI world := steady_client.

(** A loader that finds the index files, and one that rejects them. *)
Definition good_loader (fs : filesystem) (folder : string) (e : OpenAIEmbeddings)
  : outcome (VectorStore world) := Return one_doc_store.

Definition corrupt_index : exc :=
  mkExc "RuntimeError" true "could not open index.faiss".

Definition bad_loader (fs : filesystem) (folder : string) (e : OpenAIEmbeddings)
  : outcome (VectorStore world) := Raise corrupt_index.

Definition keyed_environ : gmap string string :=
  {[ "OPENAI_API_KEY" := "sk-test" ]}.

Definition credentialed_environ : gmap string string :=
  {[ "GOOGLE_CREDENTIALS_JSON" := "{}" ]}.



(** An index of 25 chunks named A to Y; chunk number [i] has the embedding
    (i, 1) and every query embeds to (1, 0), so that the relevance of chunk
    [i] is [i]. *)
Definition many_entries : list entry :=
  map (fun i => (mkChunk (String (ascii_of_nat (65 + i)) "") "Experience",
                 [ inject_Z (Z.of_nat i); 1 ]%Q))
      (seq 0 25).

Definition many_index : vector_index world :=
  mkVectorIndex world many_entries (fun _ w => (S w, Return [ 1; 0 ]%Q)) dot.

(** A completion service that answers with the text of the last message it
    is sent. *)
Definition echo_client : OpenAI world :=
  mkOpenAI world
    (fun request w =>
       (S w, Return (mkCompletion
                       [ mkChoice (match last (messages request) with
                                   | Some m => content m
                                   | None => ""
                                   end) ]))).

Definition many_app : CVQueryApp world :=
  mkCVQueryApp world echo_client some_embeddings (spec_vector_store many_index).

End MoreScenarios.

(** * Properties *)

Import Fetcher Pipeline Retriever Globals Chat Startup Session.
Import FetcherSpec PipelineSpec RetrieverSpec Scenario.

Local Open Scope list_scope.

(** ** Strings and outcomes *)

Lemma startswith_cons (a b : ascii) (s p : string) :
  startswith (String a s) (String b p)
  = if Ascii.eqb b a then startswith s p else false.
Proof. reflexivity. Qed.

Lemma occurs_cons (c d : ascii) (s : string) :
  occurs c (String d s) = if Ascii.eqb c d then true else occurs c s.
Proof. reflexivity. Qed.

Lemma startswith_app (p s : string) : startswith (p +:+ s) p = true.
Proof.
  induction p as [|c p IH]; [by destruct s|].
  change (String c p +:+ s) with (String c (p +:+ s)).
  rewrite startswith_cons, Ascii.eqb_refl. exact IH.
Qed.

Lemma occurs_basename p : occurs slash (basename p) = false.
Proof.
  induction p as [|c r IH]; cbn [basename]; [reflexivity|].
  destruct (occurs slash r) eqn:E; [exact IH|].
  destruct (Ascii.eqb c slash) eqn:Ec; [exact E|].
  rewrite occurs_cons, Ascii.eqb_sym, Ec. exact E.
Qed.

Lemma startswith_slash_occurs s : startswith s "/" = true -> occurs slash s = true.
Proof.
  destruct s as [|c r]; [discriminate|].
  rewrite startswith_cons, occurs_cons. unfold slash.
  destruct (Ascii.eqb "/" c); [reflexivity|discriminate].
Qed.

(** A base name never replaces the directory it is joined to. *)
Lemma path_join_basename dest p :
  path_join dest (basename p) =
    if String.eqb dest "" || endswith dest "/" then dest +:+ basename p
    else dest +:+ "/" +:+ basename p.
Proof.
  unfold path_join.
  destruct (startswith (basename p) "/") eqn:E; [|reflexivity].
  apply startswith_slash_occurs in E. rewrite occurs_basename in E. discriminate.
Qed.

Lemma str_join_concat sep parts : str_join sep parts = String.concat sep parts.
Proof.
  induction parts as [|p rest IH]; [reflexivity|].
  destruct rest as [|p' rest]; [reflexivity|].
  change (str_join sep (p :: p' :: rest)) with (p +:+ sep +:+ str_join sep (p' :: rest)).
  by rewrite IH.
Qed.

Lemma bind_Return_inv {A B : Type} (m : outcome A) (k : A -> outcome B) (r : B) :
  (m ≫= k) = Return r -> exists a, m = Return a /\ k a = Return r.
Proof. destruct m as [a|e]; cbn; [eauto|discriminate]. Qed.

(** ** The index fetcher *)

Section FetcherFacts.

Variable dest : string.

Lemma local_path_inj b1 b2 :
  local_path dest b1 = local_path dest b2 <-> basename (name b1) = basename (name b2).
Proof.
  unfold local_path. rewrite !path_join_basename. split; [|intros ->; reflexivity].
  destruct (String.eqb dest "" || endswith dest "/"); intros H.
  - by apply (inj (String.append dest)) in H.
  - apply (inj (String.append dest)) in H. by apply (inj (String.append "/")) in H.
Qed.

Lemma fetch_blobs_cons b rest fs :
  fetch_blobs dest (b :: rest) fs = (fetch_blob dest b fs ≫= fetch_blobs dest rest).
Proof. reflexivity. Qed.

Lemma fetch_blobs_app l1 : forall l2 fs,
  fetch_blobs dest (l1 ++ l2) fs = (fetch_blobs dest l1 fs ≫= fetch_blobs dest l2).
Proof.
  induction l1 as [|b l1 IH]; intros l2 fs; [reflexivity|].
  rewrite <- app_comm_cons, !fetch_blobs_cons.
  destruct (fetch_blob dest b fs); cbn; [apply IH|reflexivity].
Qed.

Lemma fetch_blob_dirs b fs fs1 :
  fetch_blob dest b fs = Return fs1 -> dirs fs1 = dirs fs.
Proof.
  unfold fetch_blob. destruct (is_dir_marker b); [congruence|].
  destruct (payload b); cbn; [|discriminate]. by intros [= <-].
Qed.

Lemma fetch_blobs_dirs blobs : forall fs fs1,
  fetch_blobs dest blobs fs = Return fs1 -> dirs fs1 = dirs fs.
Proof.
  induction blobs as [|b rest IH]; intros fs fs1 H; [by injection H as <-|].
  rewrite fetch_blobs_cons in H. apply bind_Return_inv in H as (fs' & E & H).
  rewrite (IH _ _ H). by eapply fetch_blob_dirs.
Qed.

(** What a run that returns leaves at a path: the last bytes written there,
    or what was there before. *)
Lemma fetch_blobs_lookup blobs : forall fs fs1 p,
  fetch_blobs dest blobs fs = Return fs1 ->
  files fs1 !! p = match last_write dest blobs p with
                   | Some bytes => Some bytes
                   | None => files fs !! p
                   end.
Proof.
  induction blobs as [|b rest IH]; intros fs fs1 p H; [by injection H as <-|].
  rewrite fetch_blobs_cons in H. apply bind_Return_inv in H as (fs' & E & H).
  rewrite (IH _ _ p H). cbn [last_write].
  destruct (last_write dest rest p); [reflexivity|].
  revert E. unfold fetch_blob. destruct (is_dir_marker b); [congruence|].
  destruct (payload b); cbn; [|discriminate]. intros [= <-]. cbn.
  destruct (decide (local_path dest b = p)) as [->|Hne].
  - apply lookup_insert_eq.
  - by apply lookup_insert_ne.
Qed.

(** Whether a run returns does not depend on the local files. *)
Lemma fetch_blobs_returns blobs : forall fs fs1 fs',
  fetch_blobs dest blobs fs = Return fs1 ->
  exists fs1', fetch_blobs dest blobs fs' = Return fs1'.
Proof.
  induction blobs as [|b rest IH]; intros fs fs1 fs'; [cbn; eauto|].
  rewrite !fetch_blobs_cons. unfold fetch_blob. destruct (is_dir_marker b); cbn.
  - apply IH.
  - destruct (payload b); cbn; [|discriminate]. apply IH.
Qed.

Lemma filesystem_eq (fs1 fs2 : filesystem) :
  dirs fs1 = dirs fs2 -> files fs1 = files fs2 -> fs1 = fs2.
Proof. destruct fs1, fs2; cbn; congruence. Qed.

Lemma fetch_blobs_idempotent blobs fs fs1 :
  fetch_blobs dest blobs (makedirs dest fs) = Return fs1 ->
  fetch_blobs dest blobs (makedirs dest fs1) = Return fs1.
Proof.
  intros H.
  destruct (fetch_blobs_returns blobs _ _ (makedirs dest fs1) H) as [fs2 H2].
  rewrite H2. f_equal. apply filesystem_eq.
  - rewrite (fetch_blobs_dirs _ _ _ H2). cbn.
    rewrite (fetch_blobs_dirs _ _ _ H). cbn.
    by rewrite (assoc_L (∪)), union_idemp_L.
  - apply map_eq. intros p.
    rewrite (fetch_blobs_lookup _ _ _ p H2). cbn.
    rewrite (fetch_blobs_lookup _ _ _ p H).
    destruct (last_write dest blobs p); reflexivity.
Qed.

(** Dropping the folder placeholders from the listing changes nothing. *)
Lemma fetch_blobs_content blobs : forall fs,
  fetch_blobs dest (content_blobs blobs) fs = fetch_blobs dest blobs fs.
Proof.
  unfold content_blobs.
  induction blobs as [|b rest IH]; intros fs; [reflexivity|].
  rewrite filter_cons. destruct (decide (is_dir_marker b = false)) as [E|E].
  - rewrite !fetch_blobs_cons. destruct (fetch_blob dest b fs); cbn; [apply IH|reflexivity].
  - rewrite IH, fetch_blobs_cons. unfold fetch_blob.
    destruct (is_dir_marker b); [reflexivity|congruence].
Qed.

Lemma fetch_blobs_payload blobs : forall fs fs1 b,
  fetch_blobs dest blobs fs = Return fs1 ->
  b ∈ blobs -> is_dir_marker b = false ->
  exists bytes, payload b = Return bytes.
Proof.
  induction blobs as [|b0 rest IH]; intros fs fs1 b H Hin Hm.
  - by apply elem_of_nil in Hin.
  - rewrite fetch_blobs_cons in H. apply bind_Return_inv in H as (fs' & E & H).
    apply elem_of_cons in Hin as [->|Hin]; [|eauto].
    unfold fetch_blob in E. rewrite Hm in E.
    destruct (payload b0); [eauto|discriminate].
Qed.

Lemma last_write_elem blobs : forall b bytes,
  b ∈ blobs -> is_dir_marker b = false -> payload b = Return bytes ->
  is_Some (last_write dest blobs (local_path dest b)).
Proof.
  induction blobs as [|b0 rest IH]; intros b bytes Hin Hm Hp.
  - by apply elem_of_nil in Hin.
  - cbn [last_write].
    destruct (last_write dest rest (local_path dest b)) eqn:E; [eauto|].
    apply elem_of_cons in Hin as [->|Hin].
    + rewrite Hm, Hp. rewrite decide_True by reflexivity. eauto.
    + destruct (IH b bytes Hin Hm Hp) as [x Hx]. congruence.
Qed.

Lemma last_write_none blobs p :
  (forall b, b ∈ blobs -> is_dir_marker b = false -> local_path dest b <> p) ->
  last_write dest blobs p = None.
Proof.
  induction blobs as [|b0 rest IH]; intros H; [reflexivity|].
  cbn [last_write]. rewrite IH.
  - destruct (is_dir_marker b0) eqn:Hm; [reflexivity|].
    rewrite decide_False; [reflexivity|]. apply H; [left|exact Hm].
  - intros b Hin. apply H. by right.
Qed.

Lemma last_write_app l1 l2 p :
  last_write dest (l1 ++ l2) p =
    match last_write dest l2 p with
    | Some bytes => Some bytes
    | None => last_write dest l1 p
    end.
Proof.
  induction l1 as [|b l1 IH]; cbn [last_write app].
  - destruct (last_write dest l2 p); reflexivity.
  - rewrite IH. destruct (last_write dest l2 p); reflexivity.
Qed.

Lemma fetch_blob_size b fs fs1 :
  fetch_blob dest b fs = Return fs1 ->
  size (files fs1) <= size (files fs) + (if is_dir_marker b then 0 else 1) /\
  (is_Some (files fs !! local_path dest b) -> size (files fs1) = size (files fs)).
Proof.
  unfold fetch_blob. destruct (is_dir_marker b).
  - intros [= <-]. lia.
  - destruct (payload b); cbn; [|discriminate]. intros [= <-]. cbn.
    rewrite map_size_insert. split.
    + destruct (files fs !! local_path dest b); unfold id; lia.
    + intros [x ->]. reflexivity.
Qed.

Lemma fetch_blobs_size blobs : forall fs fs1,
  fetch_blobs dest blobs fs = Return fs1 ->
  size (files fs1) <= size (files fs) + length (content_blobs blobs).
Proof.
  unfold content_blobs.
  induction blobs as [|b rest IH]; intros fs fs1 H.
  - injection H as <-. cbn. lia.
  - rewrite fetch_blobs_cons in H. apply bind_Return_inv in H as (fs' & E & H).
    apply IH in H. apply fetch_blob_size in E as [E _].
    rewrite filter_cons. destruct (decide (is_dir_marker b = false)) as [Hm|Hm].
    + rewrite Hm in E. cbn. lia.
    + destruct (is_dir_marker b); [lia|congruence].
Qed.

End FetcherFacts.

(** C7: a run of the index fetcher that returns skips the listed objects
    whose key ends in a slash, writes every other object to
    destination/basename(key) whatever was there before, leaves every other
    path alone, and run again on what it left, with the remote folder
    unchanged, leaves exactly the same local state. *)
Theorem fetcher_skips_writes_idempotent
    (g : gcs) (bucket_name source_folder dest : string) (fs fs1 : filesystem) :
  download_index_folder g bucket_name source_folder dest fs = Return fs1 ->
  exists blobs,
    gcs_list_blobs g bucket_name source_folder = Return blobs /\
    (forall b fs0, is_dir_marker b = true -> fetch_blob dest b fs0 = Return fs0) /\
    fetch_blobs dest (content_blobs blobs) (makedirs dest fs) = Return fs1 /\
    (forall b fs0 bytes,
        is_dir_marker b = false -> payload b = Return bytes ->
        exists fs0',
          fetch_blob dest b fs0 = Return fs0' /\
          files fs0' !! path_join dest (basename (name b)) = Some bytes /\
          forall p, p <> path_join dest (basename (name b)) ->
                    files fs0' !! p = files fs0 !! p) /\
    (forall b, b ∈ blobs -> is_dir_marker b = false ->
               is_Some (files fs1 !! path_join dest (basename (name b)))) /\
    (forall p, (forall b, b ∈ blobs -> is_dir_marker b = false ->
                          path_join dest (basename (name b)) <> p) ->
               files fs1 !! p = files fs !! p) /\
    download_index_folder g bucket_name source_folder dest fs1 = Return fs1.
Proof.
  unfold download_index_folder.
  destruct (gcs_client g) as [[]|e]; cbn; [|discriminate].
  destruct (gcs_list_blobs g bucket_name source_folder) as [blobs|e]; cbn; [|discriminate].
  intros H. exists blobs. repeat split.
  - intros b fs0 Hm. unfold fetch_blob. by rewrite Hm.
  - by rewrite fetch_blobs_content.
  - intros b fs0 bytes Hm Hp. unfold fetch_blob. rewrite Hm, Hp. cbn.
    eexists. split; [reflexivity|]. cbn. split.
    + apply lookup_insert_eq.
    + intros p Hne. by apply lookup_insert_ne.
  - intros b Hin Hm.
    destruct (fetch_blobs_payload _ _ _ _ _ H Hin Hm) as [bytes Hp].
    rewrite (fetch_blobs_lookup _ _ _ _ _ H).
    destruct (last_write_elem dest blobs b bytes Hin Hm Hp) as [x Hx].
    unfold local_path in Hx. rewrite Hx. eauto.
  - intros p Hp. rewrite (fetch_blobs_lookup _ _ _ _ _ H).
    by rewrite (last_write_none dest blobs p Hp).
  - by apply (fetch_blobs_idempotent dest blobs fs).
Qed.

Lemma fetcher_skips_writes_idempotent_witness :
  download_index_folder service "bucket" "faiss/" "/tmp/faiss_index" empty_fs
    = Return fetched /\
  download_index_folder service "bucket" "faiss/" "/tmp/faiss_index" fetched
    = Return fetched.
Proof.
  assert (H : download_index_folder service "bucket" "faiss/" "/tmp/faiss_index" empty_fs
              = Return fetched) by (vm_compute; reflexivity).
  split; [exact H|].
  destruct (fetcher_skips_writes_idempotent _ _ _ _ _ _ H)
    as (blobs & _ & _ & _ & _ & _ & _ & Hidem).
  exact Hidem.
Defined.

(** Of two objects with the same base name the one listed later decides
    what their common local file holds, and one file less is added than
    objects with content are listed. *)
Lemma fetch_blobs_later_overwrites
    (dest : string) (pre mid post : list blob) (b1 b2 : blob)
    (bytes2 : list Byte.byte) (fs fs1 : filesystem) :
  is_dir_marker b1 = false ->
  is_dir_marker b2 = false ->
  basename (name b1) = basename (name b2) ->
  payload b2 = Return bytes2 ->
  (forall b, b ∈ post -> is_dir_marker b = false ->
             basename (name b) <> basename (name b2)) ->
  fetch_blobs dest (pre ++ b1 :: mid ++ b2 :: post) fs = Return fs1 ->
  local_path dest b1 = path_join dest (basename (name b1)) /\
  occurs slash (basename (name b1)) = false /\
  local_path dest b1 = local_path dest b2 /\
  files fs1 !! local_path dest b1 = Some bytes2 /\
  size (files fs1) + 1 <=
    size (files fs) + length (content_blobs (pre ++ b1 :: mid ++ b2 :: post)).
Proof.
  intros Hm1 Hm2 Hbase Hp2 Hpost H.
  assert (Hpath : local_path dest b1 = local_path dest b2)
    by (by apply local_path_inj).
  split; [reflexivity|]. split; [apply occurs_basename|]. split; [exact Hpath|].
  split.
  - rewrite (fetch_blobs_lookup _ _ _ _ (local_path dest b1) H).
    replace (pre ++ b1 :: mid ++ b2 :: post)
      with ((pre ++ b1 :: mid) ++ [b2] ++ post) by (by rewrite <- !app_assoc).
    rewrite !last_write_app.
    rewrite (last_write_none dest post).
    + cbn [last_write]. rewrite Hm2, Hp2, decide_True by (by rewrite Hpath). reflexivity.
    + intros b Hin Hm E. apply (Hpost b Hin Hm).
      apply (local_path_inj dest). by rewrite E.
  - replace (pre ++ b1 :: mid ++ b2 :: post)
      with ((pre ++ b1 :: mid) ++ b2 :: post) in * by (by rewrite <- !app_assoc).
    rewrite fetch_blobs_app in H.
    apply bind_Return_inv in H as (fsa & Ea & H).
    rewrite fetch_blobs_cons in H.
    apply bind_Return_inv in H as (fsb & Eb & H).
    apply fetch_blobs_size in H.
    pose proof (fetch_blobs_size _ _ _ _ Ea) as Ha.
    assert (Hb1 : exists bytes1, payload b1 = Return bytes1).
    { apply (fetch_blobs_payload _ _ _ _ b1 Ea); [|exact Hm1].
      apply elem_of_app. right. left. }
    destruct Hb1 as [bytes1 Hp1].
    apply fetch_blob_size in Eb as [_ Eb].
    rewrite Eb in H.
    + unfold content_blobs in *. rewrite filter_app, length_app.
      rewrite (filter_cons_True _ b2 post) by exact Hm2. cbn. lia.
    + rewrite <- Hpath. rewrite (fetch_blobs_lookup _ _ _ _ _ Ea).
      destruct (last_write_elem dest (pre ++ b1 :: mid) b1 bytes1) as [x ->];
        [apply elem_of_app; right; left|exact Hm1|exact Hp1|eauto].
Qed.

(** C10: [download_index_folder] flattens the remote folder: the local path
    of a listed object is the destination joined with the base name of its
    key, which holds no slash; when the listing holds two objects with the
    same base name, the run leaves in their common local file the bytes of
    the one listed later (when no still later object has that base name),
    and adds fewer files than the listing has objects with content. *)
Theorem fetcher_flattens_later_overwrites
    (g : gcs) (bucket_name source_folder dest : string)
    (pre mid post : list blob) (b1 b2 : blob)
    (bytes2 : list Byte.byte) (fs fs1 : filesystem) :
  gcs_list_blobs g bucket_name source_folder
    = Return (pre ++ b1 :: mid ++ b2 :: post) ->
  is_dir_marker b1 = false ->
  is_dir_marker b2 = false ->
  basename (name b1) = basename (name b2) ->
  payload b2 = Return bytes2 ->
  (forall b, b ∈ post -> is_dir_marker b = false ->
             basename (name b) <> basename (name b2)) ->
  download_index_folder g bucket_name source_folder dest fs = Return fs1 ->
  local_path dest b1 = path_join dest (basename (name b1)) /\
  occurs slash (basename (name b1)) = false /\
  local_path dest b1 = local_path dest b2 /\
  files fs1 !! local_path dest b1 = Some bytes2 /\
  size (files fs1) + 1 <=
    size (files fs) + length (content_blobs (pre ++ b1 :: mid ++ b2 :: post)).
Proof.
  intros Hl Hm1 Hm2 Hbase Hp2 Hpost H.
  unfold download_index_folder in H.
  destruct (gcs_client g) as [[]|e]; cbn in H; [|discriminate].
  rewrite Hl in H. cbn in H.
  exact (fetch_blobs_later_overwrites dest pre mid post b1 b2 bytes2
           (makedirs dest fs) fs1 Hm1 Hm2 Hbase Hp2 Hpost H).
Qed.

Lemma fetcher_flattens_later_overwrites_witness :
  download_index_folder service "bucket" "faiss/" "/tmp/faiss_index" empty_fs
    = Return fetched /\
  files fetched !! "/tmp/faiss_index/index.faiss" = Some [ Byte.x02 ] /\
  size (files fetched) + 1 <= size (files empty_fs) + 2.
Proof.
  assert (H : download_index_folder service "bucket" "faiss/" "/tmp/faiss_index" empty_fs
              = Return fetched) by (vm_compute; reflexivity).
  split; [exact H|].
  pose proof (fetcher_flattens_later_overwrites service "bucket" "faiss/"
                "/tmp/faiss_index"
                [ mkBlob "faiss/" (Return []) ] [] []
                (mkBlob "faiss/v1/index.faiss" (Return [ Byte.x01 ]))
                (mkBlob "faiss/v2/index.faiss" (Return [ Byte.x02 ]))
                [ Byte.x02 ] empty_fs fetched
                eq_refl eq_refl eq_refl eq_refl eq_refl) as H'.
  destruct H' as (_ & _ & _ & Hlast & Hsize).
  - intros b Hin. by apply elem_of_nil in Hin.
  - exact H.
  - split; [exact Hlast|exact Hsize].
Defined.

(** ** The query pipeline *)

Lemma context_blocks_sections docs sections :
  Forall2 (fun d s => metadata d !! "section" = Some s) docs sections ->
  context_blocks docs
  = Return (zip_with (fun d s => "[" +:+ s +:+ "]" +:+ nl +:+ page_content d)
                     docs sections).
Proof.
  induction 1 as [|d s docs sections Hd _ IH]; [reflexivity|].
  cbn [context_blocks zip_with]. unfold context_block, metadata_section.
  rewrite Hd, IH. reflexivity.
Qed.

(** C6: the context is a function of the retrieved chunks alone: one block
    [<section>] newline text per chunk, in order, the blocks joined by
    newlines; no chunks give the empty string and the single chunk
    (Experience, X) gives "[Experience]" newline "X". *)
Theorem context_assembly (docs : list Document) (sections : list string) :
  Forall2 (fun d s => metadata d !! "section" = Some s) docs sections ->
  query_context docs
  = Return (String.concat nl
              (zip_with (fun d s => "[" +:+ s +:+ "]" +:+ nl +:+ page_content d)
                        docs sections)) /\
  query_context [] = Return "" /\
  query_context [ mkDocument "X" {[ "section" := "Experience" ]} ]
  = Return ("[Experience]" +:+ nl +:+ "X").
Proof.
  intros H. split; [|split; reflexivity].
  unfold query_context. rewrite (context_blocks_sections docs sections H).
  cbn. by rewrite str_join_concat.
Qed.

Lemma context_assembly_witness :
  query_context [ mkDocument "X" {[ "section" := "Experience" ]};
                  mkDocument "Python, SQL" {[ "section" := "Skills" ]} ]
  = Return ("[Experience]" +:+ nl +:+ "X" +:+ nl +:+ "[Skills]" +:+ nl +:+ "Python, SQL").
Proof.
  refine (eq_trans
            (proj1 (context_assembly
               [ mkDocument "X" {[ "section" := "Experience" ]};
                 mkDocument "Python, SQL" {[ "section" := "Skills" ]} ]
               [ "Experience"; "Skills" ] _)) _).
  - repeat constructor.
  - reflexivity.
Defined.

(** A chunk without a section makes the assembly raise [KeyError]. *)
Lemma missing_section_raises_KeyError doc rest :
  metadata doc !! "section" = None ->
  query_context (doc :: rest) = Raise (KeyError "section").
Proof.
  intros H. unfold query_context. cbn [context_blocks].
  unfold context_block, metadata_section. by rewrite H.
Qed.

Section PipelineFacts.

Context {W : Type}.
Implicit Types (self : CVQueryApp W) (w : W) (e : exc).

(** The four failure points are all the ways the body of [query] raises. *)
Lemma pipeline_raises_body self question w w' e :
  pipeline_raises self question w w' e <->
  query_body self question w = (w', Raise e).
Proof.
  unfold query_body, mbind, io_mbind, io_bind, io_lift, mret, io_mret, io_ret.
  split.
  - intros [H|docs H1 H2|docs context w1 H1 H2 H3|docs context w1 r H1 H2 H3 H4].
    + by rewrite H.
    + by rewrite H1, H2.
    + by rewrite H1, H2, H3.
    + by rewrite H1, H2, H3, H4.
  - destruct (query_docs self question w) as [w1 [docs|e1]] eqn:H1.
    + destruct (query_context docs) as [context|e2] eqn:H2.
      * destruct (chat_completions_create (client self)
                    (query_request context question) w1) as [w2 [r|e3]] eqn:H3.
        -- destruct (getitem (choices r) 0) as [c|e4] eqn:H4.
           ++ discriminate.
           ++ intros [= <- <-]. by eapply response_raises.
        -- intros [= <- <-]. by eapply generation_raises.
      * intros [= <- <-]. by eapply assembly_raises.
    + intros [= <- <-]. by apply retrieval_raises.
Qed.

Lemma query_catches self question w w' e :
  query_body self question w = (w', Raise e) ->
  exc_is_Exception e = true ->
  query self question w = (w', Return ("Error: " +:+ exc_str e)).
Proof.
  intros H He. unfold query, io_try_except_Exception. by rewrite H, He.
Qed.

Lemma query_returns self question w w' a :
  query_body self question w = (w', Return a) ->
  query self question w = (w', Return a).
Proof.
  intros H. unfold query, io_try_except_Exception. by rewrite H.
Qed.

(** [query] hands the question on as it got it, to the retriever and into
    the prompt. *)
Lemma query_question_verbatim self question context :
  query_docs self question
    = get_relevant_documents
        (as_retriever (vector_store self) "mmr" query_search_kwargs) question /\
  messages (query_request context question) !! 1
    = Some (mkMessage "user" (user_prompt context question)) /\
  user_prompt context question
    = "Based on these CV sections:" +:+ nl +:+ context +:+ nl +:+ nl
      +:+ "Question: " +:+ question.
Proof. done. Qed.

End PipelineFacts.

(** ** The chat callback *)

Section ChatFacts.

Context {W : Type}.
Implicit Types (G : gmap string (pyobj W)) (self : CVQueryApp W) (w : W).

Lemma cv_app_not_builtin : bool_decide ("cv_app" ∈ builtin_names) = false.
Proof. vm_compute. reflexivity. Qed.

Lemma load_global_unbound G :
  G !! "cv_app" = None -> load_global G "cv_app" = Raise (NameError "cv_app").
Proof. intros H. unfold load_global. by rewrite H, cv_app_not_builtin. Qed.

Lemma update_chat_submit_unbound G first rest n_clicks n_intervals user_input chat_history w :
  G !! "cv_app" = None ->
  contains (prop_id first) "submit-button" = true ->
  update_chat G (first :: rest) n_clicks n_intervals user_input chat_history w
  = (w, Raise (NameError "cv_app")).
Proof.
  intros HG Ht. unfold update_chat. rewrite Ht.
  unfold mbind, io_mbind, io_bind, io_lift. by rewrite (load_global_unbound G HG).
Qed.

Lemma update_chat_submit_bound G self first rest n_clicks n_intervals user_input chat_history w :
  G !! "cv_app" = Some (ObjCVQueryApp self) ->
  contains (prop_id first) "submit-button" = true ->
  update_chat G (first :: rest) n_clicks n_intervals user_input chat_history w
  = match query self user_input w with
    | (w', Return response) =>
        let history := chat_history ++ [ mkChat user_input response ] in
        (w', Return (mkOutputs (value (render history)) (value history)
                               (value "") (value false)))
    | (w', Raise e) => (w', Raise e)
    end.
Proof.
  intros HG Ht. unfold update_chat. rewrite Ht.
  unfold mbind, io_mbind, io_bind, io_lift, load_global. rewrite HG.
  unfold call_query. destruct (query self user_input w) as [w' [r|e]]; reflexivity.
Qed.

(** With [cv_app] bound, a blank question takes the same way through [query]
    as any other. *)
Lemma blank_question_pipeline_when_bound G self first rest n_clicks n_intervals chat_history w :
  G !! "cv_app" = Some (ObjCVQueryApp self) ->
  contains (prop_id first) "submit-button" = true ->
  update_chat G (first :: rest) n_clicks n_intervals "   " chat_history w
  = match query self "   " w with
    | (w', Return response) =>
        let history := chat_history ++ [ mkChat "   " response ] in
        (w', Return (mkOutputs (value (render history)) (value history)
                               (value "") (value false)))
    | (w', Raise e) => (w', Raise e)
    end.
Proof. apply update_chat_submit_bound. Qed.

(** The timer branch reads nothing, calls nothing and changes only the
    interval. *)
Lemma update_chat_timer G first rest n_clicks n_intervals user_input chat_history w :
  contains (prop_id first) "submit-button" = false ->
  update_chat G (first :: rest) n_clicks n_intervals user_input chat_history w
  = (w, Return (mkOutputs no_update no_update no_update (value true))).
Proof.
  intros Ht. unfold update_chat. rewrite Ht.
  destruct (contains (prop_id first) "fake-typing"); reflexivity.
Qed.

Lemma bind_names_lookup (bs : list (string * pyobj W)) key : forall p,
  key ∉ map fst bs ->
  module_globals (bind_names W bs p) !! key = module_globals p !! key.
Proof.
  unfold bind_names.
  induction bs as [|[n v] bs IH]; intros p Hn; [reflexivity|].
  cbn [fold_left]. rewrite IH.
  - cbn. apply lookup_insert_ne. intros ->. apply Hn. left.
  - intros Hin. apply Hn. by right.
Qed.

Lemma bind_names_environ (bs : list (string * pyobj W)) : forall p,
  environ (bind_names W bs p) = environ p.
Proof.
  unfold bind_names. induction bs as [|b bs IH]; intros p; [reflexivity|].
  cbn [fold_left]. by rewrite IH.
Qed.

Lemma write_credentials_lookup tmpname (p : process W) key :
  key <> "temp" ->
  module_globals (write_credentials W tmpname p) !! key = module_globals p !! key.
Proof.
  intros Hn. unfold write_credentials.
  destruct (getenv_truthy (environ p) "GOOGLE_CREDENTIALS_JSON"); [|reflexivity].
  cbn. by apply lookup_insert_ne.
Qed.

Lemma write_credentials_environ tmpname (p : process W) key :
  key <> "GOOGLE_APPLICATION_CREDENTIALS" ->
  environ (write_credentials W tmpname p) !! key = environ p !! key.
Proof.
  intros Hn. unfold write_credentials.
  destruct (getenv_truthy (environ p) "GOOGLE_CREDENTIALS_JSON"); [|reflexivity].
  cbn. by apply lookup_insert_ne.
Qed.

Lemma run_main_lookup py_int (p : process W) key :
  key <> "port" ->
  module_globals (run_main W py_int p).1 !! key = module_globals p !! key.
Proof.
  intros Hn. unfold run_main.
  destruct (environ p !! "PORT") as [s|]; [destruct (py_int s)|]; cbn;
    try reflexivity; by apply lookup_insert_ne.
Qed.

(** No statement of the module binds [cv_app]. *)
Lemma module_lacks_cv_app dunder_name py_int tmpname environ0 fs0 :
  module_globals (W:=W) (exec_module dunder_name py_int tmpname environ0 fs0).1
    !! "cv_app" = None.
Proof.
  unfold exec_module.
  destruct (String.eqb dunder_name "__main__"); [rewrite run_main_lookup by done|];
    cbn [fst]; rewrite bind_names_lookup, write_credentials_lookup, bind_names_lookup;
    try done; try (cbn; apply lookup_singleton_ne; done).
  all: cbn; intros Hin;
    repeat (apply elem_of_cons in Hin as [Hin|Hin]; [discriminate|]);
    by apply elem_of_nil in Hin.
Qed.

End ChatFacts.

(** ** A browser session *)

Section SessionFacts.

Context {W : Type}.
Implicit Types (G : gmap string (pyobj W)) (self : CVQueryApp W) (w : W) (pg : page).

Lemma fire_submit_unbound G pg w :
  G !! "cv_app" = None ->
  fire G "submit-button.n_clicks" pg w
  = (w, Return (record_error (NameError "cv_app") pg)).
Proof.
  intros HG. unfold fire.
  by rewrite (update_chat_submit_unbound G (mkTriggered "submit-button.n_clicks")
                [] None None _ _ w HG eq_refl).
Qed.

Lemma fire_submit_bound G self pg w :
  G !! "cv_app" = Some (ObjCVQueryApp self) ->
  fire G "submit-button.n_clicks" pg w
  = match query self (input_value pg) w with
    | (w', Return response) =>
        let history := store pg ++ [ mkChat (input_value pg) response ] in
        (w', Return (mkPage (render history) history "" false (callback_errors pg)))
    | (w', Raise e) => (w', Return (record_error e pg))
    end.
Proof.
  intros HG. unfold fire.
  rewrite (update_chat_submit_bound G self (mkTriggered "submit-button.n_clicks")
             [] None None _ _ w HG eq_refl).
  destruct (query self (input_value pg) w) as [w' [r|e]]; reflexivity.
Qed.

Lemma fire_timer G pg w :
  fire G "fake-typing.n_intervals" pg w
  = (w, Return (mkPage (children pg) (store pg) (input_value pg) true
                       (callback_errors pg))).
Proof.
  unfold fire.
  by rewrite (update_chat_timer G (mkTriggered "fake-typing.n_intervals")
                [] None None _ _ w eq_refl).
Qed.

(** The rendered transcript shows the answers of the log, in its order. *)
Lemma answers_shown_render (history : list chat) :
  answers_shown (render history) = map bot history.
Proof.
  unfold answers_shown, render. rewrite flat_map_app.
  change (flat_map bot_bubble_text [typing_indicator]) with (@nil string).
  rewrite app_nil_r.
  induction history as [|c rest IH]; [reflexivity|].
  cbn [flat_map map]. rewrite flat_map_app, IH. reflexivity.
Qed.

(** Every rendered transcript ends with the typing indicator. *)
Lemma shows_typing_render (history : list chat) :
  shows_typing (render history) = true.
Proof.
  unfold shows_typing, render. rewrite existsb_app.
  change (existsb is_typing_indicator [typing_indicator]) with true.
  apply orb_true_r.
Qed.

(** Whatever happens in the browser, the callback round trip ends and the
    log only grows at its end. *)
Lemma step_store_prefix G ev pg w :
  exists w' pg',
    step G ev pg w = (w', Return pg') /\ store pg `prefix_of` store pg'.
Proof.
  destruct ev as [s| |]; cbn [step].
  - eexists _, _. split; [reflexivity|]. done.
  - unfold fire, update_chat.
    change (contains (prop_id (mkTriggered "submit-button.n_clicks")) "submit-button")
      with true. cbv iota.
    unfold mbind, io_mbind, io_bind, io_lift.
    destruct (load_global G "cv_app") as [obj|e].
    + destruct (call_query obj (input_value pg) w) as [w' [r|e]].
      * eexists _, _. split; [reflexivity|]. cbn. by apply prefix_app_r.
      * eexists _, _. split; [reflexivity|]. done.
    + eexists _, _. split; [reflexivity|]. done.
  - destruct (typing_disabled pg).
    + eexists _, _. split; [reflexivity|]. done.
    + rewrite fire_timer. eexists _, _. split; [reflexivity|]. done.
Qed.

(** With [cv_app] bound, three questions in a row are answered in order. *)
Lemma ordering_when_bound G self q1 q2 q3 a1 a2 a3 w0 w1 w2 w3 :
  G !! "cv_app" = Some (ObjCVQueryApp self) ->
  query self q1 w0 = (w1, Return a1) ->
  query self q2 w1 = (w2, Return a2) ->
  query self q3 w2 = (w3, Return a3) ->
  exists pg,
    run G [ Typed q1; Clicked; Typed q2; Clicked; Typed q3; Clicked ] initial_page w0
      = (w3, Return pg) /\
    store pg = [ mkChat q1 a1; mkChat q2 a2; mkChat q3 a3 ] /\
    children pg = render (store pg) /\
    answers_shown (children pg) = [ a1; a2; a3 ].
Proof.
  intros HG H1 H2 H3. eexists. split.
  - cbn [run step]. unfold mbind, io_mbind, io_bind, mret, io_mret, io_ret.
    rewrite (fire_submit_bound G self _ w0 HG). cbn [input_value store callback_errors].
    rewrite H1. cbv zeta.
    rewrite (fire_submit_bound G self _ w1 HG). cbn [input_value store callback_errors].
    rewrite H2. cbv zeta.
    rewrite (fire_submit_bound G self _ w2 HG). cbn [input_value store callback_errors].
    rewrite H3. reflexivity.
  - cbn [store children]. split; [reflexivity|]. split; [reflexivity|].
    apply answers_shown_render.
Qed.

(** With [cv_app] bound, an answered question leaves the indicator on the
    transcript and the timer on; the tick turns the timer off and leaves
    the transcript as it is, indicator included. *)
Lemma indicator_persists_when_bound G self pg w w' answer :
  G !! "cv_app" = Some (ObjCVQueryApp self) ->
  query self (input_value pg) w = (w', Return answer) ->
  exists pg1 pg2,
    step G Clicked pg w = (w', Return pg1) /\
    last (answers_shown (children pg1)) = Some answer /\
    shows_typing (children pg1) = true /\
    typing_disabled pg1 = false /\
    step G Tick pg1 w' = (w', Return pg2) /\
    children pg2 = children pg1 /\
    shows_typing (children pg2) = true /\
    typing_disabled pg2 = true.
Proof.
  intros HG Hq. eexists _, _. split.
  { cbn [step]. rewrite (fire_submit_bound G self pg w HG), Hq. reflexivity. }
  cbn [children typing_disabled].
  split; [rewrite answers_shown_render, map_app; apply last_snoc|].
  split; [apply shows_typing_render|]. split; [reflexivity|].
  split; [cbn [step typing_disabled]; rewrite fire_timer; reflexivity|].
  cbn [children typing_disabled].
  split; [reflexivity|]. split; [apply shows_typing_render|reflexivity].
Qed.

End SessionFacts.

(** ** Question turns *)

Section TurnClaims.

Context {W : Type}.
Implicit Types (G : gmap string (pyobj W)) (self : CVQueryApp W) (w : W) (pg : page).

(** C1: when the retrieval, the context assembly, the completion call or the
    reading of its response raises an error, [query] returns the string
    "Error: " followed by the error's text instead of raising; the click that
    asked the question leaves the recorded pairs in place, and the next
    question is asked and recorded after them. *)
Theorem query_error_isolation self question w w' e :
  pipeline_raises self question w w' e ->
  exc_is_Exception e = true ->
  query self question w = (w', Return ("Error: " +:+ exc_str e)) /\
  startswith ("Error: " +:+ exc_str e) "Error: " = true /\
  forall G pg,
    input_value pg = question ->
    exists w1 pg1,
      step G Clicked pg w = (w1, Return pg1) /\
      store pg `prefix_of` store pg1 /\
      (G !! "cv_app" = Some (ObjCVQueryApp self) ->
       w1 = w' /\
       store pg1 = store pg ++ [ mkChat question ("Error: " +:+ exc_str e) ] /\
       forall question2 w2 answer2,
         query self question2 w' = (w2, Return answer2) ->
         exists pg2,
           run G [ Typed question2; Clicked ] pg1 w' = (w2, Return pg2) /\
           store pg2 = store pg ++ [ mkChat question ("Error: " +:+ exc_str e);
                                     mkChat question2 answer2 ]).
Proof.
  intros Hraise He. apply pipeline_raises_body in Hraise.
  pose proof (query_catches self question w w' e Hraise He) as Hq.
  split; [exact Hq|]. split; [apply startswith_app|].
  intros G pg Hin.
  destruct (step_store_prefix G Clicked pg w) as (w1 & pg1 & Hstep & Hpre).
  exists w1, pg1. split; [exact Hstep|]. split; [exact Hpre|].
  intros HG. cbn [step] in Hstep.
  rewrite (fire_submit_bound G self pg w HG), Hin, Hq in Hstep.
  injection Hstep as <- <-. cbn [store]. split; [reflexivity|]. split; [reflexivity|].
  intros question2 w2 answer2 Hq2.
  eexists. split.
  - cbn [run step]. unfold mbind, io_mbind, io_bind, mret, io_mret, io_ret.
    rewrite (fire_submit_bound G self _ w' HG). cbn [input_value store callback_errors].
    rewrite Hq2. reflexivity.
  - cbn [store]. by rewrite <- app_assoc.
Qed.

(** C5: [cv_app] is bound by no statement of the module, so every call of
    [update_chat] triggered by the submit button raises [NameError] out of
    the callback; the click appends no pair and renders no answer. *)
Theorem submit_raises_NameError
    dunder_name py_int tmpname environ0 fs0
    (first : triggered_input) (rest : list triggered_input)
    (n_clicks n_intervals : option Z) (user_input : string)
    (chat_history : list chat) w :
  contains (prop_id first) "submit-button" = true ->
  let G := module_globals (W:=W)
             (exec_module dunder_name py_int tmpname environ0 fs0).1 in
  G !! "cv_app" = None /\
  update_chat G (first :: rest) n_clicks n_intervals user_input chat_history w
    = (w, Raise (NameError "cv_app")) /\
  exc_str (NameError "cv_app") = "name 'cv_app' is not defined" /\
  forall pg,
    exists pg',
      step G Clicked pg w = (w, Return pg') /\
      store pg' = store pg /\ children pg' = children pg /\
      callback_errors pg' = callback_errors pg ++ [ NameError "cv_app" ].
Proof.
  intros Ht G.
  assert (HG : G !! "cv_app" = None) by apply module_lacks_cv_app.
  split; [exact HG|]. split; [by apply update_chat_submit_unbound|].
  split; [reflexivity|].
  intros pg. eexists. split; [apply (fire_submit_unbound G pg w HG)|].
  done.
Qed.

(** C3, on the module as it is: three questions asked in a row leave the log
    and the transcript empty; each click ends in [NameError] before the
    append and the rendering. *)
Theorem transcript_not_rendered_as_shipped
    dunder_name py_int tmpname environ0 fs0 (q1 q2 q3 : string) w :
  let G := module_globals (W:=W)
             (exec_module dunder_name py_int tmpname environ0 fs0).1 in
  exists pg,
    run G [ Typed q1; Clicked; Typed q2; Clicked; Typed q3; Clicked ] initial_page w
      = (w, Return pg) /\
    store pg = [] /\
    children pg = [] /\
    answers_shown (children pg) = [] /\
    callback_errors pg = [ NameError "cv_app"; NameError "cv_app"; NameError "cv_app" ].
Proof.
  intros G.
  assert (HG : G !! "cv_app" = None) by apply module_lacks_cv_app.
  eexists. split.
  - cbn [run step]. unfold mbind, io_mbind, io_bind, mret, io_mret, io_ret.
    rewrite !(fire_submit_unbound G _ w HG). reflexivity.
  - done.
Qed.

(** C9, on the module as it is: a blank or empty question submitted with the
    button reaches neither the retriever nor the completion model; the call
    raises [NameError] and leaves the world as it was. *)
Theorem blank_question_not_answered_as_shipped
    dunder_name py_int tmpname environ0 fs0
    (n_clicks n_intervals : option Z) (chat_history : list chat) w :
  let G := module_globals (W:=W)
             (exec_module dunder_name py_int tmpname environ0 fs0).1 in
  update_chat G [ mkTriggered "submit-button.n_clicks" ] n_clicks n_intervals
              "   " chat_history w
  = (w, Raise (NameError "cv_app")) /\
  update_chat G [ mkTriggered "submit-button.n_clicks" ] n_clicks n_intervals
              "" chat_history w
  = (w, Raise (NameError "cv_app")).
Proof.
  intros G.
  assert (HG : G !! "cv_app" = None) by apply module_lacks_cv_app.
  split; by apply update_chat_submit_unbound.
Qed.

(** C4, on the module as it is: started as a script without
    OPENAI_API_KEY, the module body ends without raising and with the
    listener bound on 0.0.0.0 at the configured port; it never builds a
    [CVQueryApp]. *)
Theorem listener_binds_without_api_key py_int tmpname environ0 fs0 (port : Z) :
  environ0 !! "OPENAI_API_KEY" = None ->
  match environ0 !! "PORT" with
  | Some s => py_int s
  | None => Return 7860%Z
  end = Return port ->
  let r := exec_module (W:=W) "__main__" py_int tmpname environ0 fs0 in
  r.2 = Return tt /\
  listening r.1 = Some ("0.0.0.0", port) /\
  module_globals r.1 !! "cv_app" = None.
Proof.
  intros Hkey Hport r. subst r.
  split; [|split; [|apply module_lacks_cv_app]].
  all: unfold exec_module; change (String.eqb "__main__" "__main__") with true; cbv iota.
  all: unfold run_main.
  all: rewrite bind_names_environ, write_credentials_environ, bind_names_environ by done.
  all: cbn [environ]; rewrite Hport; reflexivity.
Qed.

End TurnClaims.

Lemma query_error_isolation_witness :
  query flaky_app "Current role?" 0 = (2, Return "Error: Connection error.") /\
  run (<[ "cv_app" := ObjCVQueryApp flaky_app ]> shipped_globals)
      [ Typed "Current role?"; Clicked; Typed "Technical skills?"; Clicked ]
      initial_page 0
  = (4, Return (mkPage
        (render [ mkChat "Current role?" "Error: Connection error.";
                  mkChat "Technical skills?" "A" ])
        [ mkChat "Current role?" "Error: Connection error.";
          mkChat "Technical skills?" "A" ] "" false [])).
Proof.
  assert (Hraise : pipeline_raises flaky_app "Current role?" 0 2 connection_error).
  { eapply generation_raises; reflexivity. }
  destruct (query_error_isolation flaky_app "Current role?" 0 2 connection_error
              Hraise eq_refl) as (Hq & _ & _).
  split; [exact Hq|]. vm_compute. reflexivity.
Defined.

Lemma submit_raises_NameError_witness :
  update_chat shipped_globals [ mkTriggered "submit-button.n_clicks" ]
              (Some 1%Z) None "Current role?" [] 0
  = (0, Raise (NameError "cv_app")).
Proof.
  exact (proj1 (proj2 (submit_raises_NameError "__main__" (fun _ => Return 0%Z)
                         "/tmp/tmpcred" ∅ empty_fs
                         (mkTriggered "submit-button.n_clicks") []
                         (Some 1%Z) None "Current role?" [] 0 eq_refl))).
Defined.

Lemma listener_binds_without_api_key_witness :
  let r := exec_module (W:=world) "__main__" (fun _ => Return 0%Z) "/tmp/tmpcred" ∅
                       empty_fs in
  r.2 = Return tt /\ listening r.1 = Some ("0.0.0.0", 7860%Z) /\
  module_globals r.1 !! "cv_app" = None.
Proof.
  exact (listener_binds_without_api_key (fun _ => Return 0%Z) "/tmp/tmpcred" ∅
           empty_fs 7860%Z eq_refl eq_refl).
Defined.

Section TypingSignal.

Context {W : Type}.



End TypingSignal.


(** ** Start-up *)

Section InitFacts.

Context {W : Type}.
Variable OpenAI_new : string -> OpenAI W.
Variable FAISS_load_local :
  filesystem -> string -> OpenAIEmbeddings -> outcome (VectorStore W).

(** [CVQueryApp()] itself fails without the key, after logging the error. *)
Lemma init_fails_without_key environ0 g fs :
  getenv_truthy environ0 "OPENAI_API_KEY" = None ->
  CVQueryApp_init OpenAI_new FAISS_load_local environ0 g fs
  = ([ "Error initializing CVQueryApp: OPENAI_API_KEY not found!" ],
     Raise (ValueError "OPENAI_API_KEY not found!")).
Proof. intros H. unfold CVQueryApp_init. rewrite H. reflexivity. Qed.

(** With the key, a reachable bucket and loadable files it returns the
    application object. *)
Lemma init_returns environ0 g fs api_key fs' vs :
  getenv_truthy environ0 "OPENAI_API_KEY" = Some api_key ->
  download_index_folder g
    (getenv_default environ0 "GCS_BUCKET_NAME" "ragsd-resume-bucket")
    (getenv_default environ0 "GCS_INDEX_PATH"
       "faiss_indexes/cv_index_text-embedding-3-large")
    "/tmp/faiss_index" fs = Return fs' ->
  FAISS_load_local fs' "/tmp/faiss_index"
    (mkOpenAIEmbeddings "text-embedding-3-large" api_key) = Return vs ->
  CVQueryApp_init OpenAI_new FAISS_load_local environ0 g fs
  = ([], Return (mkCVQueryApp W (OpenAI_new api_key)
                   (mkOpenAIEmbeddings "text-embedding-3-large" api_key) vs,
                 fs')).
Proof.
  intros Hkey Hfetch Hload. unfold CVQueryApp_init, load_vector_store.
  rewrite Hkey, Hfetch, Hload. reflexivity.
Qed.

End InitFacts.

(** ** The retriever *)

Section Ranking.

Variable sim : vector -> vector -> Q.
Variable qv : vector.

Lemma insert_nearest_perm x l : insert_nearest sim qv x l ≡ₚ x :: l.
Proof.
  induction l as [|y r IH]; [reflexivity|]. cbn [insert_nearest].
  destruct (Qle_bool _ _); [reflexivity|]. rewrite IH. apply perm_swap.
Qed.

Lemma sort_nearest_perm l : sort_nearest sim qv l ≡ₚ l.
Proof.
  induction l as [|x r IH]; [reflexivity|]. cbn [sort_nearest].
  by rewrite insert_nearest_perm, IH.
Qed.

Lemma insert_nearest_sorted x l :
  StronglySorted (nearer sim qv) l ->
  StronglySorted (nearer sim qv) (insert_nearest sim qv x l).
Proof.
  induction 1 as [|y r Hr IH Hy]; cbn [insert_nearest].
  - repeat constructor.
  - destruct (Qle_bool (relevance sim qv y) (relevance sim qv x)) eqn:Hle.
    + apply Qle_bool_iff in Hle. constructor; [by constructor|].
      constructor; [exact Hle|].
      eapply Forall_impl; [exact Hy|]. intros z Hz. unfold nearer in *.
      eapply Qle_trans; eauto.
    + constructor; [exact IH|].
      rewrite (insert_nearest_perm x r). constructor; [|exact Hy].
      unfold nearer. apply Qlt_le_weak, Qnot_le_lt. intros Hc.
      apply Qle_bool_iff in Hc. congruence.
Qed.

Lemma sort_nearest_sorted l : StronglySorted (nearer sim qv) (sort_nearest sim qv l).
Proof.
  induction l as [|x r IH]; [constructor|]. by apply insert_nearest_sorted.
Qed.

Lemma length_nearest fetch_k l :
  length (nearest sim qv fetch_k l) = Nat.min fetch_k (length l).
Proof.
  unfold nearest. by rewrite length_take, (Permutation_length (sort_nearest_perm l)).
Qed.

(** The pool of step 2 is made of nearest neighbours: the index is the pool
    plus entries none of which is nearer to the query than any of the
    pool. *)
Lemma nearest_are_nearest fetch_k l :
  exists others,
    l ≡ₚ nearest sim qv fetch_k l ++ others /\
    forall x y, x ∈ nearest sim qv fetch_k l -> y ∈ others -> nearer sim qv x y.
Proof.
  exists (drop fetch_k (sort_nearest sim qv l)). unfold nearest. split.
  - by rewrite take_drop, sort_nearest_perm.
  - intros x y Hx Hy.
    eapply (StronglySorted_app_1_elem_of (nearer sim qv)); [|exact Hx|exact Hy].
    rewrite take_drop. apply sort_nearest_sorted.
Qed.

Lemma pick_best_None score pool : pick_best score pool = None -> pool = [].
Proof.
  destruct pool as [|c rest]; [reflexivity|]. cbn [pick_best].
  destruct (pick_best score rest) as [[b rest']|]; [|discriminate].
  destruct (Qle_bool _ _); discriminate.
Qed.

(** The pick is taken from the pool and no candidate scores higher. *)
Lemma pick_best_Some score pool : forall best pool',
  pick_best score pool = Some (best, pool') ->
  pool ≡ₚ best :: pool' /\
  forall c, c ∈ pool -> (score c <= score best)%Q.
Proof.
  induction pool as [|c rest IH]; intros best pool'; [discriminate|].
  cbn [pick_best].
  destruct (pick_best score rest) as [[b rest']|] eqn:E.
  - destruct (IH b rest' eq_refl) as [Hperm Hmax].
    destruct (Qle_bool (score b) (score c)) eqn:Hle; intros [= <- <-].
    + split; [reflexivity|]. intros x Hx.
      apply elem_of_cons in Hx as [->|Hx]; [apply Qle_refl|].
      apply Qle_bool_iff in Hle. eapply Qle_trans; [by apply Hmax|exact Hle].
    + split; [rewrite Hperm; apply perm_swap|]. intros x Hx.
      apply elem_of_cons in Hx as [->|Hx]; [|by apply Hmax].
      apply Qlt_le_weak, Qnot_le_lt. intros Hc.
      apply Qle_bool_iff in Hc. congruence.
  - apply pick_best_None in E. subst rest. intros [= <- <-].
    split; [reflexivity|]. intros x Hx.
    apply list_elem_of_singleton in Hx as ->. apply Qle_refl.
Qed.

Variable diversity : Q.

Lemma length_mmr_select n : forall pool selected,
  length (mmr_select sim qv diversity n pool selected) = Nat.min n (length pool).
Proof.
  induction n as [|n IH]; intros pool selected; [reflexivity|].
  cbn [mmr_select].
  destruct (pick_best _ pool) as [[b pool']|] eqn:E.
  - apply pick_best_Some in E as [Hperm _].
    cbn [length]. rewrite IH, (Permutation_length Hperm). reflexivity.
  - apply pick_best_None in E. by subst pool.
Qed.

Lemma mmr_select_order n : forall pool selected,
  selection_order (mmr_score sim qv diversity) pool selected
                  (mmr_select sim qv diversity n pool selected).
Proof.
  induction n as [|n IH]; intros pool selected; [constructor|].
  cbn [mmr_select].
  destruct (pick_best _ pool) as [[b pool']|] eqn:E; [|constructor].
  apply pick_best_Some in E as [Hperm Hmax].
  by econstructor.
Qed.

Lemma selection_order_subset score pool selected picks :
  selection_order score pool selected picks ->
  forall x, x ∈ picks -> x ∈ pool.
Proof.
  induction 1 as [|pool selected best pool' picks Hperm _ _ IH]; intros x Hx.
  - by apply elem_of_nil in Hx.
  - rewrite Hperm. apply elem_of_cons in Hx as [->|Hx]; [left|right; by apply IH].
Qed.

End Ranking.

(** On the three-chunk index the nearest chunk comes first, then the one that
    scores best given the first. *)
Example retrieval_in_selection_order :
  match (query_docs indexed_app "Current role?" 0).2 with
  | Return docs => map page_content docs
  | Raise _ => []
  end
  = [ "Senior data scientist at Acme"; "Data scientist at Acme"; "Python, SQL" ].
Proof. vm_compute. reflexivity. Qed.

(** * Further properties of the code *)

Import TextSpec TranscriptSpec MoreScenarios.

(** ** Keys and local file names *)

Lemma endswith_cons (c : ascii) (s p : string) :
  endswith (String c s) p = if String.eqb (String c s) p then true else endswith s p.
Proof. reflexivity. Qed.

Lemma endswith_nil (p : string) : endswith "" p = String.eqb "" p.
Proof. cbn [endswith]. by destruct (String.eqb "" p). Qed.

Lemma append_assoc (a b c : string) : (a +:+ b) +:+ c = a +:+ b +:+ c.
Proof.
  induction a as [|x a IH]; [reflexivity|].
  change ((String x a +:+ b) +:+ c) with (String x ((a +:+ b) +:+ c)).
  by rewrite IH.
Qed.

Lemma endswith_slash_iff (s : string) :
  endswith s "/" = true <-> exists stem, s = stem +:+ "/".
Proof.
  split.
  - induction s as [|c s IH].
    + rewrite endswith_nil. discriminate.
    + rewrite endswith_cons.
      destruct (String.eqb (String c s) "/") eqn:E.
      * apply String.eqb_eq in E. exists "". by rewrite E.
      * intros H. destruct (IH H) as [stem ->]. by exists (String c stem).
  - intros [stem ->].
    induction stem as [|c stem IH]; [reflexivity|].
    change (String c stem +:+ "/") with (String c (stem +:+ "/")).
    rewrite endswith_cons, IH. by destruct (String.eqb _ _).
Qed.

Lemma endswith_app_nonempty (s t : string) :
  t <> "" -> endswith (s +:+ t) "/" = endswith t "/".
Proof.
  intros Ht. induction s as [|c s IH]; [reflexivity|].
  change (String c s +:+ t) with (String c (s +:+ t)).
  rewrite endswith_cons, IH.
  destruct (String.eqb (String c (s +:+ t)) "/") eqn:E; [|reflexivity].
  apply String.eqb_eq in E. injection E as _ E.
  destruct s; [|discriminate]. by destruct t.
Qed.

Lemma endswith_slash_occurs (s : string) :
  endswith s "/" = true -> occurs slash s = true.
Proof.
  induction s as [|c s IH]; [rewrite endswith_nil; discriminate|].
  rewrite endswith_cons, occurs_cons.
  destruct (String.eqb (String c s) "/") eqn:E.
  - apply String.eqb_eq in E. injection E as -> ->. reflexivity.
  - intros H. rewrite (IH H). by destruct (Ascii.eqb slash c).
Qed.

Lemma occurs_app c (s t : string) : occurs c (s +:+ t) = occurs c s || occurs c t.
Proof.
  induction s as [|d s IH]; [reflexivity|].
  change (String d s +:+ t) with (String d (s +:+ t)).
  rewrite !occurs_cons, IH. by destruct (Ascii.eqb c d).
Qed.

Lemma basename_no_slash s : occurs slash s = false -> basename s = s.
Proof.
  destruct s as [|c s]; [reflexivity|]. rewrite occurs_cons.
  destruct (Ascii.eqb slash c) eqn:E; [discriminate|]. intros H.
  cbn [basename]. by rewrite H, Ascii.eqb_sym, E.
Qed.

Lemma basename_after_slash folder base :
  occurs slash base = false -> basename (folder +:+ "/" +:+ base) = base.
Proof.
  intros Hb. induction folder as [|c folder IH].
  - change ("" +:+ "/" +:+ base) with (String slash base).
    cbn [basename]. by rewrite Hb, Ascii.eqb_refl.
  - change (String c folder +:+ "/" +:+ base) with (String c (folder +:+ "/" +:+ base)).
    cbn [basename]. rewrite occurs_app.
    change (occurs slash ("/" +:+ base)) with (occurs slash (String slash base)).
    rewrite occurs_cons, Ascii.eqb_refl, orb_true_r. exact IH.
Qed.

Lemma endswith_slash_basename s :
  s <> "" -> endswith s "/" = false -> basename s <> "".
Proof.
  induction s as [|c s IH]; [done|]. intros _. rewrite endswith_cons.
  destruct (String.eqb (String c s) "/") eqn:E; [discriminate|]. intros He.
  cbn [basename]. destruct (occurs slash s) eqn:Ho.
  - apply IH; [|exact He]. intros ->. discriminate.
  - destruct (Ascii.eqb c slash) eqn:Ec; [|discriminate].
    apply Ascii.eqb_eq in Ec. subst c.
    destruct s as [|d s]; [discriminate|discriminate].
Qed.

(** X1: the fetcher skips a listed object exactly when its key is some
    string followed by a slash; a key with a slash elsewhere only is not
    skipped. *)
Theorem marker_iff_trailing_slash (b : blob) :
  is_dir_marker b = true <-> exists stem, name b = stem +:+ "/".
Proof. unfold is_dir_marker. apply endswith_slash_iff. Qed.

(** X2: an object whose key is folder/base, with a non-empty base free of
    slashes, is not skipped and is saved as destination/base, whatever the
    folder: the remote folders leave no trace in the local path. *)
Theorem nested_key_saved_under_base_name dest folder base (b : blob) :
  name b = folder +:+ "/" +:+ base ->
  base <> "" -> occurs slash base = false ->
  dest <> "" -> endswith dest "/" = false ->
  is_dir_marker b = false /\
  local_path dest b = dest +:+ "/" +:+ base /\
  basename (local_path dest b) = base.
Proof.
  intros Hn Hb Hs Hd He.
  assert (Hm : is_dir_marker b = false).
  { unfold is_dir_marker. rewrite Hn.
    rewrite endswith_app_nonempty by (by destruct base).
    rewrite (endswith_app_nonempty "/" base Hb).
    destruct (endswith base "/") eqn:E; [|reflexivity].
    apply endswith_slash_occurs in E. congruence. }
  assert (Hp : local_path dest b = dest +:+ "/" +:+ base).
  { unfold local_path. rewrite path_join_basename, Hn, basename_after_slash by exact Hs.
    rewrite He. destruct (String.eqb dest "") eqn:E; [|reflexivity].
    apply String.eqb_eq in E. congruence. }
  split; [exact Hm|]. split; [exact Hp|].
  rewrite Hp. by apply basename_after_slash.
Qed.

Lemma nested_key_saved_under_base_name_witness :
  is_dir_marker (mkBlob "faiss/v1/index.faiss" (Return [])) = false /\
  local_path "/tmp/faiss_index" (mkBlob "faiss/v1/index.faiss" (Return []))
  = "/tmp/faiss_index/index.faiss".
Proof.
  destruct (nested_key_saved_under_base_name "/tmp/faiss_index" "faiss/v1" "index.faiss"
              (mkBlob "faiss/v1/index.faiss" (Return []))
              eq_refl ltac:(discriminate) eq_refl ltac:(discriminate) eq_refl)
    as (Hm & Hp & _).
  split; [exact Hm|exact Hp].
Defined.

(** X3: an object that is not skipped and has a non-empty key always gets a
    non-empty file name, and the base name of its local path is the base
    name of its key, for every destination. *)
Theorem content_object_has_file_name dest (b : blob) :
  is_dir_marker b = false -> name b <> "" ->
  basename (name b) <> "" /\
  basename (local_path dest b) = basename (name b).
Proof.
  intros Hm Hn. split; [by apply endswith_slash_basename|].
  unfold local_path. rewrite path_join_basename.
  pose proof (occurs_basename (name b)) as Ho.
  destruct (String.eqb dest "" || endswith dest "/") eqn:E.
  - apply orb_true_iff in E as [E|E].
    + apply String.eqb_eq in E. subst dest. by apply basename_no_slash.
    + apply endswith_slash_iff in E as [stem ->].
      rewrite append_assoc. by apply basename_after_slash.
  - by apply basename_after_slash.
Qed.

Lemma content_object_has_file_name_witness :
  basename "faiss/v2/index.pkl" <> "" /\
  basename (local_path "/tmp/faiss_index/" (mkBlob "faiss/v2/index.pkl" (Return [])))
  = basename "faiss/v2/index.pkl".
Proof.
  exact (content_object_has_file_name "/tmp/faiss_index/"
           (mkBlob "faiss/v2/index.pkl" (Return [])) eq_refl ltac:(discriminate)).
Defined.

(** ** Runs of the fetcher *)

Lemma fetch_blobs_markers dest blobs fs :
  Forall (fun b => is_dir_marker b = true) blobs ->
  fetch_blobs dest blobs fs = Return fs.
Proof.
  induction 1 as [|b rest Hb _ IH]; [reflexivity|].
  rewrite fetch_blobs_cons. unfold fetch_blob. rewrite Hb. exact IH.
Qed.

(** X4: a run over a listing that is empty or holds folder placeholders
    only has, when it returns, written no file. *)
Theorem fetch_markers_only g bucket_name source_folder dest fs fs1 blobs :
  gcs_list_blobs g bucket_name source_folder = Return blobs ->
  Forall (fun b => is_dir_marker b = true) blobs ->
  download_index_folder g bucket_name source_folder dest fs = Return fs1 ->
  files fs1 = files fs.
Proof.
  intros Hl Hm. unfold download_index_folder.
  destruct (gcs_client g) as [[]|e]; cbn; [|discriminate].
  rewrite Hl. cbn. rewrite (fetch_blobs_markers dest blobs _ Hm).
  by intros [= <-].
Qed.

Lemma fetch_markers_only_witness :
  download_index_folder placeholder_service "bucket" "faiss/" "/tmp/faiss_index" fetched
    = Return (makedirs "/tmp/faiss_index" fetched) /\
  files (makedirs "/tmp/faiss_index" fetched) = files fetched.
Proof.
  assert (H : download_index_folder placeholder_service "bucket" "faiss/"
                "/tmp/faiss_index" fetched
              = Return (makedirs "/tmp/faiss_index" fetched)) by reflexivity.
  split; [exact H|].
  refine (fetch_markers_only placeholder_service "bucket" "faiss/" "/tmp/faiss_index"
            fetched _ [ mkBlob "faiss/" (Return []) ] eq_refl _ H).
  repeat constructor.
Defined.

Lemma last_write_Some dest blobs p :
  is_Some (last_write dest blobs p) ->
  exists b, b ∈ blobs /\ is_dir_marker b = false /\ local_path dest b = p.
Proof.
  induction blobs as [|b0 rest IH]; [by intros [? ?]|]. cbn [last_write].
  destruct (last_write dest rest p) as [x|].
  - intros _. destruct IH as (b & Hin & H); [eauto|]. exists b. split; [by right|done].
  - destruct (is_dir_marker b0) eqn:Hm; [by intros [? ?]|].
    destruct (decide (local_path dest b0 = p)) as [Hp|]; [|by intros [? ?]].
    intros _. exists b0. split; [left|done].
Qed.

(** X6: a run that returns changes files in the destination only: every
    path whose content differs afterwards is the destination joined with a
    name free of slashes, so nothing is written outside the destination or
    below a subdirectory of it. *)
Theorem fetch_touches_only_destination g bucket_name source_folder dest fs fs1 :
  download_index_folder g bucket_name source_folder dest fs = Return fs1 ->
  forall p, files fs1 !! p <> files fs !! p ->
            exists base, occurs slash base = false /\ p = path_join dest base.
Proof.
  unfold download_index_folder.
  destruct (gcs_client g) as [[]|e]; cbn; [|discriminate].
  destruct (gcs_list_blobs g bucket_name source_folder) as [blobs|e]; cbn; [|discriminate].
  intros H p Hp. rewrite (fetch_blobs_lookup _ _ _ _ p H) in Hp.
  destruct (last_write dest blobs p) as [bytes|] eqn:E; [|done].
  destruct (last_write_Some dest blobs p) as (b & _ & _ & <-); [by rewrite E|].
  exists (basename (name b)). split; [apply occurs_basename|reflexivity].
Qed.

Lemma fetch_touches_only_destination_witness :
  download_index_folder service "bucket" "faiss/" "/tmp/faiss_index" empty_fs
    = Return fetched /\
  exists base,
    occurs slash base = false /\
    "/tmp/faiss_index/index.faiss" = path_join "/tmp/faiss_index" base.
Proof.
  assert (H : download_index_folder service "bucket" "faiss/" "/tmp/faiss_index" empty_fs
              = Return fetched) by (vm_compute; reflexivity).
  split; [exact H|].
  apply (fetch_touches_only_destination _ _ _ _ _ _ H). vm_compute. discriminate.
Defined.

(** ** Context assembly *)

Lemma context_blocks_raises docs :
  Exists (fun d => metadata d !! "section" = None) docs ->
  context_blocks docs = Raise (KeyError "section").
Proof.
  induction docs as [|d rest IH]; intros H; [by apply Exists_nil in H|].
  cbn [context_blocks]. unfold context_block, metadata_section.
  destruct (metadata d !! "section") as [s|] eqn:E; [|reflexivity].
  cbn. apply Exists_cons in H as [H|H]; [congruence|]. by rewrite (IH H).
Qed.

Lemma context_blocks_returns docs :
  Forall (fun d => is_Some (metadata d !! "section")) docs ->
  exists blocks, context_blocks docs = Return blocks /\ length blocks = length docs.
Proof.
  induction 1 as [|d rest [s Hs] _ (blocks & IH & Hlen)]; [by exists []|].
  cbn [context_blocks]. unfold context_block, metadata_section. rewrite Hs, IH.
  eexists. split; [reflexivity|]. cbn. by rewrite Hlen.
Qed.

Lemma context_blocks_length docs blocks :
  context_blocks docs = Return blocks -> length blocks = length docs.
Proof.
  revert blocks. induction docs as [|d rest IH]; intros blocks H.
  - by injection H as <-.
  - cbn [context_blocks] in H.
    destruct (context_block d) as [b|]; cbn in H; [|discriminate].
    destruct (context_blocks rest) as [bs|]; cbn in H; [|discriminate].
    injection H as <-. cbn. by rewrite (IH bs).
Qed.

Lemma context_blocks_app docs1 docs2 blocks1 blocks2 :
  context_blocks docs1 = Return blocks1 ->
  context_blocks docs2 = Return blocks2 ->
  context_blocks (docs1 ++ docs2) = Return (blocks1 ++ blocks2).
Proof.
  revert blocks1. induction docs1 as [|d rest IH]; intros blocks1 H1 H2.
  - injection H1 as <-. exact H2.
  - rewrite <- app_comm_cons. cbn [context_blocks] in *.
    destruct (context_block d) as [b|]; cbn in *; [|discriminate].
    destruct (context_blocks rest) as [bs|]; cbn in *; [|discriminate].
    injection H1 as <-. by rewrite (IH bs eq_refl H2).
Qed.

Lemma str_join_app sep (l1 l2 : list string) :
  l1 <> [] -> l2 <> [] ->
  str_join sep (l1 ++ l2) = str_join sep l1 +:+ sep +:+ str_join sep l2.
Proof.
  intros H1 H2. induction l1 as [|p rest IH]; [done|].
  destruct rest as [|p' rest].
  - destruct l2 as [|q l2]; [done|]. reflexivity.
  - change (str_join sep ((p :: p' :: rest) ++ l2))
      with (p +:+ sep +:+ str_join sep ((p' :: rest) ++ l2)).
    rewrite IH by done.
    change (str_join sep (p :: p' :: rest)) with (p +:+ sep +:+ str_join sep (p' :: rest)).
    by rewrite !append_assoc.
Qed.

(** X7: the context assembly raises exactly when some retrieved document
    has no 'section' in its metadata, and then with KeyError('section') and
    nothing else; it returns a string exactly when every document has
    one. *)
Theorem context_raises_iff_missing_section (docs : list Document) :
  (query_context docs = Raise (KeyError "section") <->
   Exists (fun d => metadata d !! "section" = None) docs) /\
  (forall e, query_context docs = Raise e -> e = KeyError "section") /\
  ((exists context, query_context docs = Return context) <->
   Forall (fun d => is_Some (metadata d !! "section")) docs).
Proof.
  assert (Hdec : Exists (fun d => metadata d !! "section" = None) docs \/
                 Forall (fun d => is_Some (metadata d !! "section")) docs).
  { induction docs as [|d rest [IH|IH]].
    - right. constructor.
    - left. by right.
    - destruct (metadata d !! "section") eqn:E.
      + right. constructor; [by rewrite E|exact IH].
      + left. by left. }
  unfold query_context. destruct Hdec as [H|H].
  - rewrite (context_blocks_raises docs H). cbn. split; [done|]. split.
    + by intros e [= <-].
    + split; [by intros [? ?]|]. intros HF. exfalso.
      apply Exists_exists in H as (d & Hin & Hd).
      rewrite Forall_forall in HF. destruct (HF d Hin) as [s Hs]. congruence.
  - destruct (context_blocks_returns docs H) as (blocks & -> & _). cbn. split.
    + split; [discriminate|]. intros HE. exfalso.
      apply Exists_exists in HE as (d & Hin & Hd).
      rewrite Forall_forall in H. destruct (H d Hin) as [s Hs]. congruence.
    + split; [discriminate|]. split; [done|eauto].
Qed.

(** X8: the context of two non-empty runs of documents put one after the
    other is the context of the first, a newline, and the context of the
    second. *)
Theorem context_of_concatenation docs1 docs2 context1 context2 :
  docs1 <> [] -> docs2 <> [] ->
  query_context docs1 = Return context1 ->
  query_context docs2 = Return context2 ->
  query_context (docs1 ++ docs2) = Return (context1 +:+ nl +:+ context2).
Proof.
  unfold query_context. intros Hn1 Hn2 H1 H2.
  destruct (context_blocks docs1) as [b1|] eqn:E1; cbn in H1; [|discriminate].
  destruct (context_blocks docs2) as [b2|] eqn:E2; cbn in H2; [|discriminate].
  injection H1 as <-. injection H2 as <-.
  rewrite (context_blocks_app docs1 docs2 b1 b2 E1 E2). cbn.
  rewrite str_join_app; [reflexivity| |].
  - apply context_blocks_length in E1. intros ->. by destruct docs1.
  - apply context_blocks_length in E2. intros ->. by destruct docs2.
Qed.

Lemma context_of_concatenation_witness :
  query_context ([ cv_doc ] ++ [ skills_doc ])
  = Return (("[Experience]" +:+ nl +:+ "X") +:+ nl +:+ ("[Skills]" +:+ nl +:+ "Python, SQL")).
Proof.
  exact (context_of_concatenation [ cv_doc ] [ skills_doc ] _ _
           ltac:(discriminate) ltac:(discriminate) eq_refl eq_refl).
Defined.

(** ** Outcomes of [query] *)

Section QueryOutcomes.

Context {W : Type}.
Implicit Types (self : CVQueryApp W) (w : W) (e : exc).

Lemma query_body_steps self question w w1 docs context :
  query_docs self question w = (w1, Return docs) ->
  query_context docs = Return context ->
  query_body self question w
  = match chat_completions_create (client self) (query_request context question) w1 with
    | (w2, Return response) =>
        (w2, match getitem (choices response) 0 with
             | Return first => Return (choice_content first)
             | Raise e => Raise e
             end)
    | (w2, Raise e) => (w2, Raise e)
    end.
Proof.
  intros Hd Hc.
  unfold query_body, mbind, io_mbind, io_bind, io_lift, mret, io_mret, io_ret.
  rewrite Hd, Hc.
  destruct (chat_completions_create _ _ w1) as [w2 [r|e]]; [|reflexivity].
  by destruct (getitem (choices r) 0).
Qed.

(** X9: [query] never raises an exception that derives from [Exception]:
    it raises [e] exactly when its body raises [e] and [e] does not derive
    from [Exception] (a keyboard interrupt, a system exit), and then leaves
    the world as the body left it. *)
Theorem query_raises_iff self question w w' e :
  query self question w = (w', Raise e) <->
  query_body self question w = (w', Raise e) /\ exc_is_Exception e = false.
Proof.
  unfold query, io_try_except_Exception.
  destruct (query_body self question w) as [w1 [a|e1]].
  - split; [discriminate|]. by intros [? _].
  - destruct (exc_is_Exception e1) eqn:He.
    + split; [discriminate|]. intros [[= <- <-] H]. congruence.
    + split; [intros [= <- <-]; done|]. by intros [[= <- <-] _].
Qed.

(** X10: when the retrieval returns documents that all carry a section and
    the completion service answers the request built from them (model
    gpt-4o-mini, the system prompt, the user message made of the context
    and the question, temperature 0.1, at most 2000 tokens), [query]
    returns the content of the first choice as it is and ignores the other
    choices. *)
Theorem query_returns_first_choice self question w w1 w2 docs sections first others :
  query_docs self question w = (w1, Return docs) ->
  Forall2 (fun d s => metadata d !! "section" = Some s) docs sections ->
  chat_completions_create (client self)
    (mkRequest "gpt-4o-mini"
       [ mkMessage "system" system_prompt;
         mkMessage "user"
           ("Based on these CV sections:" +:+ nl +:+
            String.concat nl
              (zip_with (fun d s => "[" +:+ s +:+ "]" +:+ nl +:+ page_content d)
                        docs sections)
            +:+ nl +:+ nl +:+ "Question: " +:+ question) ]
       (1 # 10) 2000) w1
  = (w2, Return (mkCompletion (first :: others))) ->
  query self question w = (w2, Return (choice_content first)).
Proof.
  intros Hd Hs Hc. apply query_returns.
  assert (Hctx : query_context docs
                 = Return (String.concat nl
                     (zip_with (fun d s => "[" +:+ s +:+ "]" +:+ nl +:+ page_content d)
                               docs sections))).
  { unfold query_context. rewrite (context_blocks_sections docs sections Hs).
    cbn. by rewrite str_join_concat. }
  rewrite (query_body_steps self question w w1 docs _ Hd Hctx).
  unfold query_request, user_prompt. by rewrite Hc.
Qed.

(** X11: when the completion service answers with no choice at all,
    [query] returns "Error: list index out of range" instead of raising. *)
Theorem query_empty_choices self question w w1 w2 docs context :
  query_docs self question w = (w1, Return docs) ->
  query_context docs = Return context ->
  chat_completions_create (client self) (query_request context question) w1
  = (w2, Return (mkCompletion [])) ->
  query self question w = (w2, Return "Error: list index out of range").
Proof.
  intros Hd Hctx Hc.
  apply (query_catches self question w w2 (IndexError "list index out of range"));
    [|reflexivity].
  rewrite (query_body_steps self question w w1 docs context Hd Hctx). by rewrite Hc.
Qed.

(** X12: when a retrieved document has no 'section' in its metadata,
    [query] returns "Error: 'section'" and the world is as the retrieval
    left it: the completion service is not called, whatever it would have
    answered. *)
Theorem query_missing_section self question w w1 docs :
  query_docs self question w = (w1, Return docs) ->
  Exists (fun d => metadata d !! "section" = None) docs ->
  query self question w = (w1, Return "Error: 'section'").
Proof.
  intros Hd He.
  apply (query_catches self question w w1 (KeyError "section")); [|reflexivity].
  apply pipeline_raises_body. eapply assembly_raises; [exact Hd|].
  unfold query_context. by rewrite (context_blocks_raises docs He).
Qed.

(** X13: when the retrieval finds no document, [query] does not stop: it
    calls the completion service with an empty context, that is with the
    user message "Based on these CV sections:", three newlines and
    "Question: " followed by the question, and returns its first choice. *)
Theorem query_no_documents self question w w1 w2 first others :
  query_docs self question w = (w1, Return []) ->
  chat_completions_create (client self)
    (mkRequest "gpt-4o-mini"
       [ mkMessage "system" system_prompt;
         mkMessage "user"
           ("Based on these CV sections:" +:+ nl +:+ nl +:+ nl +:+
            "Question: " +:+ question) ]
       (1 # 10) 2000) w1
  = (w2, Return (mkCompletion (first :: others))) ->
  query self question w = (w2, Return (choice_content first)).
Proof.
  intros Hd Hc. apply query_returns.
  rewrite (query_body_steps self question w w1 [] "" Hd eq_refl).
  unfold query_request, user_prompt.
  change ("Based on these CV sections:" +:+ nl +:+ "" +:+ nl +:+ nl +:+ "Question: " +:+ question)
    with ("Based on these CV sections:" +:+ nl +:+ nl +:+ nl +:+ "Question: " +:+ question).
  by rewrite Hc.
Qed.

End QueryOutcomes.

Lemma query_returns_first_choice_witness :
  query steady_app "Current role?" 0 = (2, Return "A").
Proof.
  refine (query_returns_first_choice steady_app "Current role?" 0 1 2
            [ cv_doc ] [ "Experience" ] (mkChoice "A") [] eq_refl _ eq_refl).
  repeat constructor.
Defined.

Lemma query_empty_choices_witness :
  query silent_app "Current role?" 0 = (2, Return "Error: list index out of range").
Proof.
  exact (query_empty_choices silent_app "Current role?" 0 1 2 [ cv_doc ]
           ("[Experience]" +:+ nl +:+ "X") eq_refl eq_refl eq_refl).
Defined.

Lemma query_missing_section_witness :
  query untagged_app "Current role?" 0 = (1, Return "Error: 'section'").
Proof.
  refine (query_missing_section untagged_app "Current role?" 0 1
            [ mkDocument "X" ∅ ] eq_refl _).
  by left.
Defined.

Lemma query_no_documents_witness :
  query empty_app "Current role?" 0 = (2, Return "A").
Proof.
  exact (query_no_documents empty_app "Current role?" 0 1 2 (mkChoice "A") []
           eq_refl eq_refl).
Defined.

(** ** The callback and the transcript *)

(** X14: with [dash] bound as line 1 binds it, a call of the callback with
    nothing triggered, or whose first trigger does not name the submit
    button, returns without raising, leaves the world alone and updates
    neither the transcript nor the store nor the input field, whether
    [cv_app] is bound or not; only the interval is switched off when
    something was triggered. *)
Theorem non_submit_trigger_is_inert {W : Type} (G : gmap string (pyobj W))
    triggered n_clicks n_intervals user_input chat_history (w : W) :
  G !! "dash" = Some (ObjModule "dash") ->
  match triggered with
  | [] => True
  | first :: _ => contains (prop_id first) "submit-button" = false
  end ->
  exists o,
    update_chat G triggered n_clicks n_intervals user_input chat_history w = (w, Return o) /\
    out_children o = no_update /\ out_store o = no_update /\ out_input o = no_update /\
    out_typing_disabled o = match triggered with [] => no_update | _ => value true end.
Proof.
  intros _. destruct triggered as [|first rest]; intros H.
  - eexists. split; [reflexivity|]. done.
  - rewrite (update_chat_timer G first rest _ _ _ _ w H). eexists. split; [reflexivity|]. done.
Qed.

Lemma non_submit_trigger_is_inert_witness :
  shipped_globals !! "dash" = Some (ObjModule "dash") /\
  exists o,
    update_chat shipped_globals [ mkTriggered "fake-typing.n_intervals" ]
                None (Some 1%Z) "Current role?" [ mkChat "Q" "A" ] 0
    = (0, Return o) /\
    out_store o = no_update.
Proof.
  assert (Hdash : shipped_globals !! "dash" = Some (ObjModule "dash"))
    by (vm_compute; reflexivity).
  split; [exact Hdash|].
  destruct (non_submit_trigger_is_inert shipped_globals
              [ mkTriggered "fake-typing.n_intervals" ]
              None (Some 1%Z) "Current role?" [ mkChat "Q" "A" ] 0 Hdash eq_refl)
    as (o & Ho & _ & Hs & _).
  exists o. split; [exact Ho|exact Hs].
Defined.

Lemma questions_shown_bubbles (history : list chat) :
  questions_shown (flat_map chat_bubbles history) = map user history.
Proof.
  unfold questions_shown.
  induction history as [|c rest IH]; [reflexivity|].
  cbn [flat_map map]. rewrite flat_map_app, IH. reflexivity.
Qed.

(** X15: the transcript built from a log has two bubbles per exchange and
    the typing indicator last; it shows the questions and the answers of
    the log in the log's order, and the bubbles of a log stay as they are,
    at the front, in the transcript of any longer log. *)
Theorem render_structure (history more : list chat) :
  length (render history) = 2 * length history + 1 /\
  questions_shown (render history) = map user history /\
  answers_shown (render history) = map bot history /\
  last (render history) = Some typing_indicator /\
  flat_map chat_bubbles history `prefix_of` render (history ++ more).
Proof.
  split; [|split; [|split; [|split]]].
  - unfold render. rewrite length_app. cbn [length].
    induction history as [|c rest IH]; [reflexivity|].
    cbn [flat_map]. rewrite length_app. cbn [chat_bubbles length] in *. lia.
  - unfold render, questions_shown. rewrite flat_map_app.
    change (flat_map user_bubble_text [typing_indicator]) with (@nil string).
    rewrite app_nil_r. apply questions_shown_bubbles.
  - apply answers_shown_render.
  - unfold render. apply last_snoc.
  - unfold render. rewrite flat_map_app, <- app_assoc. by apply prefix_app_r.
Qed.

(** ** Building the application object *)

Lemma getenv_truthy_None environ0 key :
  getenv_truthy environ0 key = None <->
  environ0 !! key = None \/ environ0 !! key = Some "".
Proof.
  unfold getenv_truthy, truthy. destruct (environ0 !! key) as [v|]; [|by split; [left|]].
  destruct (String.eqb v "") eqn:E; cbn.
  - apply String.eqb_eq in E. subst v. by split; [right|].
  - apply String.eqb_neq in E. split; [discriminate|]. intros [?|[= ->]]; done.
Qed.

Section InitOutcomes.

Context {W : Type}.
Variable OpenAI_new : string -> OpenAI W.
Variable FAISS_load_local :
  filesystem -> string -> OpenAIEmbeddings -> outcome (VectorStore W).

(** X16: with OPENAI_API_KEY unset, or set to the empty string,
    [CVQueryApp()] raises ValueError("OPENAI_API_KEY not found!") after
    logging one error record, whatever the storage service and the local
    files are: the key is checked before anything is fetched. *)
Theorem init_key_absent_or_empty environ0 g fs :
  environ0 !! "OPENAI_API_KEY" = None \/ environ0 !! "OPENAI_API_KEY" = Some "" ->
  CVQueryApp_init OpenAI_new FAISS_load_local environ0 g fs
  = ([ "Error initializing CVQueryApp: OPENAI_API_KEY not found!" ],
     Raise (ValueError "OPENAI_API_KEY not found!")).
Proof.
  intros H. apply getenv_truthy_None in H.
  unfold CVQueryApp_init. rewrite H. reflexivity.
Qed.

(** X17: [CVQueryApp()] returns exactly when the key is set and not empty,
    the fetch of the configured bucket and folder (with their defaults) into
    /tmp/faiss_index returns, and the index loads from the fetched files;
    the object then holds the client built from the key, the embeddings
    text-embedding-3-large with that key, and the loaded store, and no error
    record was logged. *)
Theorem init_returns_iff environ0 g fs app fs' records :
  CVQueryApp_init OpenAI_new FAISS_load_local environ0 g fs = (records, Return (app, fs')) <->
  records = [] /\
  exists api_key,
    environ0 !! "OPENAI_API_KEY" = Some api_key /\ api_key <> "" /\
    download_index_folder g
      (getenv_default environ0 "GCS_BUCKET_NAME" "ragsd-resume-bucket")
      (getenv_default environ0 "GCS_INDEX_PATH"
         "faiss_indexes/cv_index_text-embedding-3-large")
      "/tmp/faiss_index" fs = Return fs' /\
    FAISS_load_local fs' "/tmp/faiss_index"
      (mkOpenAIEmbeddings "text-embedding-3-large" api_key)
    = Return (vector_store app) /\
    client app = OpenAI_new api_key /\
    embeddings app = mkOpenAIEmbeddings "text-embedding-3-large" api_key.
Proof.
  unfold CVQueryApp_init, load_vector_store, getenv_truthy, truthy.
  destruct (environ0 !! "OPENAI_API_KEY") as [api_key|] eqn:Hk.
  2:{ cbn. split; [discriminate|]. by intros (_ & ? & ? & _). }
  destruct (String.eqb api_key "") eqn:Hne; cbn.
  { apply String.eqb_eq in Hne. split; [discriminate|].
    intros (_ & k & [= <-] & Hk' & _). done. }
  apply String.eqb_neq in Hne.
  destruct (download_index_folder g _ _ "/tmp/faiss_index" fs) as [fs1|e] eqn:Hd.
  2:{ cbn. destruct (exc_is_Exception e); (split; [discriminate|]).
      all: by intros (_ & k & _ & _ & ? & _). }
  destruct (FAISS_load_local fs1 "/tmp/faiss_index" _) as [vs|e] eqn:Hl; cbn.
  - split.
    + intros H. injection H as <- <- <-. split; [reflexivity|]. exists api_key. done.
    + intros (-> & k & [= <-] & _ & [= <-] & Hvs & Hc & He).
      rewrite Hl in Hvs. injection Hvs as ->. destruct app; cbn in *. by subst.
  - destruct (exc_is_Exception e) eqn:He; cbn; rewrite ?He.
    all: split; [discriminate|].
    all: intros (_ & k & [= <-] & _ & [= <-] & Hvs & _); by rewrite Hl in Hvs.
Qed.

(** X18: whenever [CVQueryApp()] raises an error that derives from
    [Exception], the last error record is "Error initializing CVQueryApp: "
    followed by the error's text and at most one record precedes it; an
    exception that does not derive from [Exception] passes through
    unlogged. *)
Theorem init_failure_log environ0 g fs records e :
  CVQueryApp_init OpenAI_new FAISS_load_local environ0 g fs = (records, Raise e) ->
  if exc_is_Exception e
  then last records = Some ("Error initializing CVQueryApp: " +:+ exc_str e) /\
       1 <= length records <= 2
  else records = [].
Proof.
  unfold CVQueryApp_init, load_vector_store.
  destruct (getenv_truthy environ0 "OPENAI_API_KEY") as [api_key|]; cbn.
  2:{ intros [= <- <-]. cbn. split; [reflexivity|lia]. }
  destruct (download_index_folder g _ _ "/tmp/faiss_index" fs) as [fs1|e1]; cbn.
  2:{ destruct (exc_is_Exception e1) eqn:He1; intros [= <- <-]; rewrite He1;
        [split; [reflexivity|cbn; lia]|reflexivity]. }
  destruct (FAISS_load_local fs1 "/tmp/faiss_index" _) as [vs|e1]; cbn; [discriminate|].
  destruct (exc_is_Exception e1) eqn:He1; cbn; rewrite ?He1; intros [= <- <-]; rewrite He1.
  - split; [reflexivity|cbn; lia].
  - reflexivity.
Qed.

(** X19: when the key is set and the fetch returns but the index does not
    load, the error is logged twice, first by [load_vector_store] ("Error
    loading index. ...") and then by [__init__], and the loader's own
    exception is the one raised. *)
Theorem init_load_failure_logged_twice environ0 g fs api_key fs' e :
  getenv_truthy environ0 "OPENAI_API_KEY" = Some api_key ->
  download_index_folder g
    (getenv_default environ0 "GCS_BUCKET_NAME" "ragsd-resume-bucket")
    (getenv_default environ0 "GCS_INDEX_PATH"
       "faiss_indexes/cv_index_text-embedding-3-large")
    "/tmp/faiss_index" fs = Return fs' ->
  FAISS_load_local fs' "/tmp/faiss_index"
    (mkOpenAIEmbeddings "text-embedding-3-large" api_key) = Raise e ->
  exc_is_Exception e = true ->
  CVQueryApp_init OpenAI_new FAISS_load_local environ0 g fs
  = ([ "Error loading index. Verify downloaded files match FAISS requirements.";
       "Error initializing CVQueryApp: " +:+ exc_str e ],
     Raise e).
Proof.
  intros Hk Hd Hl He. unfold CVQueryApp_init, load_vector_store.
  rewrite Hk, Hd, Hl. cbn. rewrite He. cbn. by rewrite He.
Qed.

End InitOutcomes.

Lemma init_key_absent_or_empty_witness :
  CVQueryApp_init steady_new good_loader ∅ service empty_fs
  = ([ "Error initializing CVQueryApp: OPENAI_API_KEY not found!" ],
     Raise (ValueError "OPENAI_API_KEY not found!")).
Proof.
  exact (init_key_absent_or_empty steady_new good_loader ∅ service empty_fs
           (or_introl eq_refl)).
Defined.

Lemma init_failure_log_witness :
  CVQueryApp_init steady_new bad_loader keyed_environ service empty_fs
  = ([ "Error loading index. Verify downloaded files match FAISS requirements.";
       "Error initializing CVQueryApp: could not open index.faiss" ],
     Raise corrupt_index) /\
  last [ "Error loading index. Verify downloaded files match FAISS requirements.";
         "Error initializing CVQueryApp: could not open index.faiss" ]
  = Some ("Error initializing CVQueryApp: " +:+ exc_str corrupt_index).
Proof.
  assert (H : CVQueryApp_init steady_new bad_loader keyed_environ service empty_fs
              = ([ "Error loading index. Verify downloaded files match FAISS requirements.";
                   "Error initializing CVQueryApp: could not open index.faiss" ],
                 Raise corrupt_index)) by (vm_compute; reflexivity).
  split; [exact H|].
  exact (proj1 (init_failure_log steady_new bad_loader keyed_environ service empty_fs
                  _ corrupt_index H)).
Defined.

Lemma init_load_failure_logged_twice_witness :
  CVQueryApp_init steady_new bad_loader keyed_environ service empty_fs
  = ([ "Error loading index. Verify downloaded files match FAISS requirements.";
       "Error initializing CVQueryApp: could not open index.faiss" ],
     Raise corrupt_index).
Proof.
  refine (init_load_failure_logged_twice steady_new bad_loader keyed_environ service
            empty_fs "sk-test" (makedirs "/tmp/faiss_index" empty_fs) corrupt_index
            _ _ eq_refl eq_refl).
  - vm_compute. reflexivity.
  - vm_compute. reflexivity.
Defined.

(** ** The module body *)

Section ModuleBody.

Context {W : Type}.

Lemma bind_names_other (bs : list (string * pyobj W)) (p : process W) :
  environ (bind_names W bs p) = environ p /\
  proc_fs (bind_names W bs p) = proc_fs p /\
  error_log (bind_names W bs p) = error_log p /\
  listening (bind_names W bs p) = listening p.
Proof.
  unfold bind_names. revert p. induction bs as [|b bs IH]; intros p; [done|].
  cbn [fold_left]. destruct (IH (bind_name W b.1 b.2 p)) as (-> & -> & -> & ->). done.
Qed.

Lemma run_main_other py_int (p : process W) :
  environ (run_main W py_int p).1 = environ p /\
  proc_fs (run_main W py_int p).1 = proc_fs p /\
  error_log (run_main W py_int p).1 = error_log p.
Proof.
  unfold run_main.
  destruct (environ p !! "PORT") as [s|]; [destruct (py_int s)|]; done.
Qed.

(** The process when the imports are done. *)
Lemma after_imports dunder_name environ0 fs0 :
  let p := bind_names W (imports W)
             (mkProcess W environ0 fs0 {[ "__name__" := ObjOther dunder_name ]} [] None) in
  environ p = environ0 /\ proc_fs p = fs0 /\ error_log p = [] /\ listening p = None /\
  forall key, key ∉ map fst (imports W) -> key <> "__name__" ->
              module_globals p !! key = None.
Proof.
  intros p. subst p.
  destruct (bind_names_other (imports W)
              (mkProcess W environ0 fs0 {[ "__name__" := ObjOther dunder_name ]} [] None))
    as (-> & -> & -> & ->).
  do 4 (split; [reflexivity|]).
  intros key Hk Hk'. rewrite bind_names_lookup by exact Hk. cbn.
  by apply lookup_singleton_ne.
Qed.

Lemma port_temp_not_bound key :
  key = "port" \/ key = "temp" ->
  (key ∉ map fst (definitions W)) /\ (key ∉ map fst (imports W)).
Proof.
  intros [->| ->]; split; cbn; intros Hin;
    repeat (apply elem_of_cons in Hin as [Hin|Hin]; [discriminate|]);
    by apply elem_of_nil in Hin.
Qed.

(** The process when the [def] and [class] statements are done, before the
    [__main__] test. *)
Lemma before_main dunder_name tmpname environ0 fs0 :
  let p := bind_names W (definitions W)
             (write_credentials W tmpname
                (bind_names W (imports W)
                   (mkProcess W environ0 fs0 {[ "__name__" := ObjOther dunder_name ]} [] None))) in
  listening p = None /\
  module_globals p !! "port" = None /\
  environ p !! "PORT" = environ0 !! "PORT" /\
  (getenv_truthy environ0 "GOOGLE_CREDENTIALS_JSON" = None ->
   environ p = environ0 /\ proc_fs p = fs0 /\
   error_log p = [ "GOOGLE_CREDENTIALS_JSON environment variable not set." ] /\
   module_globals p !! "temp" = None).
Proof.
  intros p. subst p.
  destruct (after_imports dunder_name environ0 fs0) as (He0 & Hf0 & Hl0 & Hn0 & Hg0).
  set (p0 := bind_names W (imports W) _) in *. clearbody p0.
  set (p1 := write_credentials W tmpname p0).
  destruct (bind_names_other (definitions W) p1) as (He2 & Hf2 & Hl2 & Hn2).
  split; [|split; [|split]].
  - rewrite Hn2. unfold p1, write_credentials.
    by destruct (getenv_truthy (environ p0) "GOOGLE_CREDENTIALS_JSON").
  - rewrite bind_names_lookup by (apply port_temp_not_bound; by left).
    unfold p1. rewrite write_credentials_lookup by done.
    apply Hg0; [apply port_temp_not_bound; by left|done].
  - rewrite He2. unfold p1. rewrite write_credentials_environ by done. by rewrite He0.
  - intros Hc. rewrite He2, Hf2, Hl2.
    rewrite bind_names_lookup by (apply port_temp_not_bound; by right).
    unfold p1, write_credentials. rewrite He0, Hc. cbn. rewrite He0, Hf0, Hl0.
    repeat split. apply Hg0; [apply port_temp_not_bound; by right|done].
Qed.

(** X20: with GOOGLE_CREDENTIALS_JSON set to a non-empty text of 7-bit
    characters, the module body writes exactly that text to the temporary
    file, points GOOGLE_APPLICATION_CREDENTIALS at the file, leaves the
    other variables and files alone, logs no error and binds [temp]. *)
Theorem credentials_written dunder_name py_int tmpname environ0 fs0 json :
  environ0 !! "GOOGLE_CREDENTIALS_JSON" = Some json -> json <> "" ->
  is_ascii json = true ->
  let p := (exec_module (W:=W) dunder_name py_int tmpname environ0 fs0).1 in
  environ p = <[ "GOOGLE_APPLICATION_CREDENTIALS" := tmpname ]> environ0 /\
  string_of_list_byte <$> files (proc_fs p) !! tmpname = Some json /\
  (forall path, path <> tmpname -> files (proc_fs p) !! path = files fs0 !! path) /\
  error_log p = [] /\
  is_Some (module_globals p !! "temp").
Proof.
  intros Hj Hne _ p.
  assert (Hw : forall q : process W,
             environ q = environ0 ->
             write_credentials W tmpname q
             = bind_name W "temp" (ObjOther "NamedTemporaryFile")
                 (mkProcess W (<[ "GOOGLE_APPLICATION_CREDENTIALS" := tmpname ]> (environ q))
                    (write_file tmpname (list_byte_of_string json) (proc_fs q))
                    (module_globals q) (error_log q) (listening q))).
  { intros q Hq. unfold write_credentials, getenv_truthy, truthy. rewrite Hq, Hj.
    apply String.eqb_neq in Hne. by rewrite Hne. }
  subst p. unfold exec_module.
  destruct (after_imports dunder_name environ0 fs0) as (He0 & Hf0 & Hl0 & _ & _).
  set (p0 := bind_names W (imports W) _) in *. clearbody p0.
  rewrite (Hw p0 He0).
  set (p1 := bind_name W "temp" _ _).
  set (p2 := bind_names W (definitions W) p1).
  destruct (bind_names_other (definitions W) p1) as (He2 & Hf2 & Hl2 & _).
  fold p2 in He2, Hf2, Hl2.
  assert (Hg2 : is_Some (module_globals p2 !! "temp")).
  { unfold p2. rewrite bind_names_lookup by (apply port_temp_not_bound; by right).
    unfold p1. cbn. rewrite lookup_insert_eq. eauto. }
  assert (Hfin : forall q : process W,
             environ q = environ p2 -> proc_fs q = proc_fs p2 -> error_log q = error_log p2 ->
             is_Some (module_globals q !! "temp") ->
             environ q = <[ "GOOGLE_APPLICATION_CREDENTIALS" := tmpname ]> environ0 /\
             string_of_list_byte <$> files (proc_fs q) !! tmpname = Some json /\
             (forall path, path <> tmpname -> files (proc_fs q) !! path = files fs0 !! path) /\
             error_log q = [] /\ is_Some (module_globals q !! "temp")).
  { intros q -> -> -> Hg. rewrite He2, Hf2, Hl2. unfold p1. cbn. rewrite He0, Hf0, Hl0.
    split; [reflexivity|]. split.
    - rewrite lookup_insert_eq. cbn. by rewrite string_of_list_byte_of_string.
    - split; [|done]. intros path Hp. by apply lookup_insert_ne. }
  destruct (String.eqb dunder_name "__main__").
  - destruct (run_main_other py_int p2) as (He & Hf & Hl).
    apply Hfin; try done. by rewrite run_main_lookup.
  - by apply Hfin.
Qed.

(** X21: with GOOGLE_CREDENTIALS_JSON unset or empty, the module body logs
    the one error record "GOOGLE_CREDENTIALS_JSON environment variable not
    set.", writes no file, changes no variable and goes on: imported it
    ends without raising, and started as a script without PORT it binds
    port 7860. *)
Theorem credentials_missing_logged_not_fatal dunder_name py_int tmpname environ0 fs0 :
  environ0 !! "GOOGLE_CREDENTIALS_JSON" = None \/
  environ0 !! "GOOGLE_CREDENTIALS_JSON" = Some "" ->
  let r := exec_module (W:=W) dunder_name py_int tmpname environ0 fs0 in
  error_log r.1 = [ "GOOGLE_CREDENTIALS_JSON environment variable not set." ] /\
  environ r.1 = environ0 /\
  proc_fs r.1 = fs0 /\
  module_globals r.1 !! "temp" = None /\
  (dunder_name <> "__main__" -> r.2 = Return tt) /\
  (dunder_name = "__main__" -> environ0 !! "PORT" = None ->
   r.2 = Return tt /\ listening r.1 = Some ("0.0.0.0", 7860%Z)).
Proof.
  intros Hc r. apply getenv_truthy_None in Hc. subst r. unfold exec_module.
  destruct (before_main dunder_name tmpname environ0 fs0) as (Hn & Hp & Hport & H).
  destruct (H Hc) as (He & Hf & Hl & Ht). clear H.
  set (p := bind_names W (definitions W) _) in *. clearbody p.
  destruct (String.eqb dunder_name "__main__") eqn:Ed.
  - destruct (run_main_other py_int p) as (He' & Hf' & Hl').
    rewrite He', Hf', Hl', run_main_lookup by done.
    do 4 (split; [done|]). split.
    + intros Hd. by apply String.eqb_eq in Ed.
    + intros _ H0. unfold run_main. by rewrite Hport, H0.
  - cbn [fst snd]. do 4 (split; [done|]). split; [done|].
    intros ->. discriminate.
Qed.



End ModuleBody.

Lemma credentials_written_witness :
  let p := (exec_module (W:=world) "app" (fun _ => Return 0%Z) "/tmp/tmpcred"
              credentialed_environ empty_fs).1 in
  environ p !! "GOOGLE_APPLICATION_CREDENTIALS" = Some "/tmp/tmpcred" /\
  string_of_list_byte <$> files (proc_fs p) !! "/tmp/tmpcred" = Some "{}" /\
  error_log p = [].
Proof.
  destruct (credentials_written (W:=world) "app" (fun _ => Return 0%Z) "/tmp/tmpcred"
              credentialed_environ empty_fs "{}" eq_refl ltac:(discriminate) eq_refl)
    as (He & Hf & _ & Hl & _).
  split; [|split; [exact Hf|exact Hl]].
  rewrite He. apply lookup_insert_eq.
Defined.

Lemma credentials_missing_logged_not_fatal_witness :
  let r := exec_module (W:=world) "__main__" (fun _ => Return 0%Z) "/tmp/tmpcred" ∅ empty_fs in
  error_log r.1 = [ "GOOGLE_CREDENTIALS_JSON environment variable not set." ] /\
  r.2 = Return tt /\ listening r.1 = Some ("0.0.0.0", 7860%Z).
Proof.
  destruct (credentials_missing_logged_not_fatal (W:=world) "__main__"
              (fun _ => Return 0%Z) "/tmp/tmpcred" ∅ empty_fs
              ltac:(left; reflexivity))
    as (Hl & _ & _ & _ & _ & Hm).
  split; [exact Hl|]. exact (Hm eq_refl eq_refl).
Defined.



(** ** The retrieval inside [query] *)

Lemma context_of_chunks (chunks : list chunk) :
  query_context (map doc_of_chunk chunks)
  = Return (String.concat nl
              (map (fun c => "[" +:+ section c +:+ "]" +:+ nl +:+ text c) chunks)).
Proof.
  unfold query_context.
  assert (H : context_blocks (map doc_of_chunk chunks)
              = Return (map (fun c => "[" +:+ section c +:+ "]" +:+ nl +:+ text c) chunks)).
  { induction chunks as [|c rest IH]; [reflexivity|].
    cbn [map context_blocks]. rewrite IH.
    unfold context_block, metadata_section, doc_of_chunk. cbn [metadata page_content].
    rewrite lookup_singleton_eq. reflexivity. }
  rewrite H. cbn. by rewrite str_join_concat.
Qed.

(** C2: [query] asks the store for its "mmr" retriever with k=8, fetch_k=20
    and lambda_mult=0.7 and builds its completion request from what comes
    back: over an index whose query embedding succeeds, the documents are
    min(8, number of chunks) many, at most 8, each taken from the 20
    nearest neighbours of the query's embedding, in the order the selection
    picked them, and the context [query] sends is made of exactly these, in
    that order. *)
Theorem retrieval_bound {W : Type} (index : vector_index W) (self : CVQueryApp W)
    (question : string) (w w' : W) (qv : vector) :
  vector_store self = spec_vector_store index ->
  embed_query index question w = (w', Return qv) ->
  let pool := nearest (similarity index) qv 20 (entries index) in
  query_docs self question
    = get_relevant_documents
        (as_retriever (vector_store self) "mmr" (mkSearchKwargs 8 20 (7 # 10)))
        question /\
  exists picks others,
    query_docs self question w = (w', Return (map doc_of_chunk (map fst picks))) /\
    (forall w2 first rest,
        chat_completions_create (client self)
          (query_request
             (String.concat nl
                (map (fun c => "[" +:+ section c +:+ "]" +:+ nl +:+ text c)
                     (map fst picks)))
             question) w'
        = (w2, Return (mkCompletion (first :: rest))) ->
        query self question w = (w2, Return (choice_content first))) /\
    length (map doc_of_chunk (map fst picks)) = Nat.min 8 (length (entries index)) /\
    length (map doc_of_chunk (map fst picks)) <= 8 /\
    (forall c, c ∈ picks -> c ∈ pool) /\
    length pool = Nat.min 20 (length (entries index)) /\
    entries index ≡ₚ pool ++ others /\
    (forall x y, x ∈ pool -> y ∈ others ->
                 (similarity index qv (snd y) <= similarity index qv (snd x))%Q) /\
    selection_order (mmr_score (similarity index) qv (7 # 10)) pool [] picks.
Proof.
  intros Hstore Hembed pool. split; [reflexivity|].
  destruct (nearest_are_nearest (similarity index) qv 20 (entries index))
    as (others & Hperm & Hnear).
  exists (mmr_select (similarity index) qv (7 # 10) 8 pool []), others.
  pose proof (mmr_select_order (similarity index) qv (7 # 10) 8 pool []) as Hsel.
  assert (Hlen : length (mmr_select (similarity index) qv (7 # 10) 8 pool [])
                 = Nat.min 8 (length (entries index))).
  { rewrite length_mmr_select. unfold pool. rewrite length_nearest. lia. }
  assert (Hle : length (mmr_select (similarity index) qv (7 # 10) 8 pool []) <= 8)
    by (rewrite Hlen; lia).
  assert (Hdocs : query_docs self question w
                  = (w', Return (map doc_of_chunk
                           (map fst (mmr_select (similarity index) qv (7 # 10) 8 pool []))))).
  { unfold query_docs. rewrite Hstore.
    cbn [spec_vector_store as_retriever get_relevant_documents query_search_kwargs
         k fetch_k lambda_mult].
    change (String.eqb "mmr" "mmr") with true. cbv iota.
    unfold retrieve, mbind, io_mbind, io_bind, mret, io_mret, io_ret.
    rewrite Hembed. reflexivity. }
  split; [exact Hdocs|]. split.
  { intros w2 first rest Hc. apply query_returns.
    rewrite (query_body_steps self question w w' _ _ Hdocs (context_of_chunks _)).
    by rewrite Hc. }
  rewrite !length_map.
  split; [exact Hlen|]. split; [exact Hle|].
  split; [by apply (selection_order_subset _ _ _ _ Hsel)|].
  split; [apply length_nearest|].
  split; [exact Hperm|]. split; [exact Hnear|exact Hsel].
Qed.

Lemma retrieval_bound_witness :
  embed_query many_index "Current role?" 0 = (1, Return [ 1; 0 ]%Q) /\
  length (entries many_index) = 25 /\
  exists docs,
    query_docs many_app "Current role?" 0 = (1, Return docs) /\
    length docs = 8 /\
    exists answer, query many_app "Current role?" 0 = (2, Return answer).
Proof.
  split; [reflexivity|]. split; [reflexivity|].
  destruct (retrieval_bound many_index many_app "Current role?" 0 1 [ 1; 0 ]%Q
              eq_refl eq_refl) as (_ & picks & others & Hdocs & Hq & Hlen & _).
  eexists. split; [exact Hdocs|]. split; [exact Hlen|].
  eexists. exact (Hq 2 _ [] eq_refl).
Defined.

(** On the index of 25 chunks the nearest one (Y) comes first; the other
    seven are those of the 20 nearest (F to Y) that are least like it, and
    the five chunks outside the 20 nearest (A to E), which would score
    better still, are never picked. *)
Example retrieval_cut_by_fetch_k_and_k :
  match (query_docs many_app "Current role?" 0).2 with
  | Return docs => map page_content docs
  | Raise _ => []
  end
  = [ "Y"; "F"; "G"; "H"; "I"; "J"; "K"; "L" ].
Proof. vm_compute. reflexivity. Qed.

(** There [query], whose completion service echoes the prompt it is sent,
    answers with the prompt built from these eight chunks in this order. *)
Example query_sends_what_was_retrieved :
  query many_app "Current role?" 0
  = (2, Return (user_prompt
                  (String.concat nl
                     (map (fun t => "[Experience]" +:+ nl +:+ t)
                          [ "Y"; "F"; "G"; "H"; "I"; "J"; "K"; "L" ]))
                  "Current role?")).
Proof. vm_compute. reflexivity. Qed.
